(** * Revision diffs of record storage ([record/storage.py])

    A shallow embedding of [Storage.revision_generate], the class method that
    computes the changes between two versions of a record, together with the
    properties of it that the design document states.

    Python values are modelled by the inductive type [value]; a [dict] is an
    association list in insertion order, because Python iterates a [dict] in
    that order.  Calls that can raise are modelled in the error monad
    [outcome].  The method body looks one attribute up on its class argument,
    [cls.generate_changes]; the class is therefore an explicit argument of
    the model, and [Storage] is the class as the module declares it. *)

From Stdlib Require Import String Ascii ZArith Bool Arith Lia List.
From Stdlib Require Import DecimalString DecimalNat.
Import ListNotations.

Local Open Scope string_scope.
Local Open Scope list_scope.
Local Open Scope nat_scope.

#[local] Set Warnings "-register-all".

(* ------------------------------------------------------------------ *)
(** ** Python values *)

(** The value space of a record: [None], booleans, integers, strings, lists
    and string-keyed dicts.  (Floating point numbers are left out.) *)
Inductive value : Type :=
| VNone
| VBool (b : bool)
| VInt (z : Z)
| VStr (s : string)
| VList (items : list value)
| VDict (entries : list (string * value)).

(** A [dict], in insertion order. *)
Definition dict : Type := list (string * value).

(** Exceptions a call can end with. *)
Inductive exn : Type :=
| AttributeError
| KeyError
| IndexError
| ValueError
| RecursionError
| OtherError (name : string).

(** The outcome of a call: a returned value or a raised exception. *)
Inductive outcome (A : Type) : Type :=
| Ret (a : A)
| Raise (e : exn).

Arguments Ret {A} a.
Arguments Raise {A} e.

Definition bind {A B : Type} (m : outcome A) (k : A -> outcome B) : outcome B :=
  match m with
  | Ret a => k a
  | Raise e => Raise e
  end.

Notation "x <- m ;; k" := (bind m (fun x => k))
  (at level 61, m at next level, right associativity).

(** [isinstance(v, dict)] and [isinstance(v, list)]. *)
Definition is_dict (v : value) : bool :=
  match v with VDict _ => true | _ => false end.

Definition is_list (v : value) : bool :=
  match v with VList _ => true | _ => false end.

(** Truth value of an object, as [if v:] tests it. *)
Definition truthy (v : value) : bool :=
  match v with
  | VNone => false
  | VBool b => b
  | VInt z => negb (z =? 0)%Z
  | VStr s => negb (String.eqb s EmptyString)
  | VList l => match l with [] => false | _ => true end
  | VDict d => match d with [] => false | _ => true end
  end.

(** [a == b] on values that are neither lists nor dicts.  [bool] is a
    subclass of [int], so [True == 1] and [False == 0]. *)
Definition scalar_eq (a b : value) : bool :=
  match a, b with
  | VNone, VNone => true
  | VBool x, VBool y => Bool.eqb x y
  | VBool x, VInt y => (Z.b2z x =? y)%Z
  | VInt x, VBool y => (x =? Z.b2z y)%Z
  | VInt x, VInt y => (x =? y)%Z
  | VStr x, VStr y => String.eqb x y
  | _, _ => false
  end.

(* ------------------------------------------------------------------ *)
(** ** Operations on dicts and lists *)

(** [k in d] *)
Fixpoint dict_in {V : Type} (k : string) (d : list (string * V)) : bool :=
  match d with
  | [] => false
  | (k', _) :: d' => if String.eqb k k' then true else dict_in k d'
  end.

(** [d[k]], which raises [KeyError] on a missing key. *)
Fixpoint dict_get {V : Type} (d : list (string * V)) (k : string) : outcome V :=
  match d with
  | [] => Raise KeyError
  | (k', v) :: d' => if String.eqb k k' then Ret v else dict_get d' k
  end.

(** [d[k] = v]: an existing key keeps its position, a new key goes last. *)
Fixpoint dict_set {V : Type} (d : list (string * V)) (k : string) (v : V)
    : list (string * V) :=
  match d with
  | [] => [(k, v)]
  | (k', v') :: d' =>
      if String.eqb k k' then (k', v) :: d' else (k', v') :: dict_set d' k v
  end.

(** [d.keys()] *)
Definition keys {V : Type} (d : list (string * V)) : list string := map fst d.

(** [l.remove(x)]: drops the first item equal to [x], [ValueError] when
    there is none; [is_x] is the comparison with [x]. *)
Fixpoint list_remove {A : Type} (is_x : A -> bool) (l : list A)
    : outcome (list A) :=
  match l with
  | [] => Raise ValueError
  | y :: l' =>
      if is_x y then Ret l'
      else l'' <- list_remove is_x l' ;; Ret (y :: l'')
  end.

(** [l[i]] for [i >= 0], which raises [IndexError] out of range. *)
Definition list_get {V : Type} (l : list V) (i : nat) : outcome V :=
  match nth_error l i with
  | Some v => Ret v
  | None => Raise IndexError
  end.

(** [str(i)] for a non-negative index. *)
Definition str (i : nat) : string := NilEmpty.string_of_uint (Nat.to_uint i).

(** The dict display [{ 'old': a, 'new': b }]. *)
Definition old_new (a b : value) : value :=
  VDict [("old", a); ("new", b)].

(** [x > y and x or y] on lengths: [and] yields its second operand when the
    first is true, [or] yields its first operand when that one is truthy. *)
Definition and_or (x y : nat) : nat :=
  if y <? x then (if x =? 0 then y else x) else y.

(* ------------------------------------------------------------------ *)
(** ** Classes *)

(** A bound class method of two arguments, as a function of the values of
    its arguments.  A method that changes the objects it is given is not of
    this kind; the model over the object store below has such methods, and
    the condition that rules them out is [class_refines]. *)
Definition method : Type := value -> value -> outcome value.

(** A class, as far as [revision_generate] looks at it: what the attribute
    [generate_changes] resolves to along the method resolution order, [None]
    when no class on it binds the name. *)
Record pyclass : Type := { generate_changes : option method }.

(** [cls.generate_changes]: [AttributeError] when the name is not bound. *)
Definition getattr_generate_changes (cls : pyclass) : outcome method :=
  match generate_changes cls with
  | Some g => Ret g
  | None => Raise AttributeError
  end.

(** The class [Storage].  Its body binds [add], [create], [count], [exists],
    [fetch], [install], [remove], [revision_add], [revision_generate] and
    [uninstall], and not [generate_changes]; the bases [define.Tree] and
    [abc.ABC] are imported and are taken not to bind it either. *)
Definition Storage : pyclass := {| generate_changes := None |}.

(* ------------------------------------------------------------------ *)
(** ** [revision_generate] *)

Section RevisionGenerate.

Variable cls : pyclass.

(** [for k in old:], over the keys [ks] still to visit, with the locals
    [dRet] and [lNewKeys]. *)
Fixpoint dict_old_loop (old new : dict) (ks : list string)
    (dRet : dict) (lNewKeys : list string) : outcome (dict * list string) :=
  match ks with
  | [] => Ret (dRet, lNewKeys)
  | k :: ks' =>
      if negb (dict_in k new) then
        o <- dict_get old k ;;
        dict_old_loop old new ks' (dict_set dRet k (old_new o VNone)) lNewKeys
      else
        g <- getattr_generate_changes cls ;;
        o <- dict_get old k ;;
        n <- dict_get new k ;;
        dTemp <- g o n ;;
        lNewKeys' <- list_remove (String.eqb k) lNewKeys ;;
        dict_old_loop old new ks'
          (if truthy dTemp then dict_set dRet k dTemp else dRet) lNewKeys'
  end.

(** [for k in lNewKeys:] *)
Fixpoint dict_new_loop (new : dict) (ks : list string) (dRet : dict)
    : outcome dict :=
  match ks with
  | [] => Ret dRet
  | k :: ks' =>
      n <- dict_get new k ;;
      dict_new_loop new ks' (dict_set dRet k (old_new VNone n))
  end.

(** The [dRet] of the dict branch when its two loops are done. *)
Definition dict_changes (old new : dict) : outcome dict :=
  r <- dict_old_loop old new (keys old) [] (keys new) ;;
  let '(dRet, lNewKeys) := r in
  match lNewKeys with
  | [] => Ret dRet
  | _ => dict_new_loop new lNewKeys dRet
  end.

(** [for i in range(iOldLen):], over the indexes [idx] still to visit. *)
Fixpoint list_old_loop (old new : list value) (iNewLen : nat)
    (idx : list nat) (dRet : dict) : outcome dict :=
  match idx with
  | [] => Ret dRet
  | i :: idx' =>
      if iNewLen <=? i then
        o <- list_get old i ;;
        list_old_loop old new iNewLen idx'
          (dict_set dRet (str i) (old_new o VNone))
      else
        g <- getattr_generate_changes cls ;;
        o <- list_get old i ;;
        n <- list_get new i ;;
        dTemp <- g o n ;;
        list_old_loop old new iNewLen idx'
          (if truthy dTemp then dict_set dRet (str i) dTemp else dRet)
  end.

(** [for i in range(iOldLen, iNewLen):] *)
Fixpoint list_new_loop (new : list value) (idx : list nat) (dRet : dict)
    : outcome dict :=
  match idx with
  | [] => Ret dRet
  | i :: idx' =>
      n <- list_get new i ;;
      list_new_loop new idx' (dict_set dRet (str i) (old_new VNone n))
  end.

(** The [dRet] of the list branch when its two loops are done. *)
Definition list_changes (old new : list value) : outcome dict :=
  let iOldLen := length old in
  let iNewLen := length new in
  dRet <- list_old_loop old new iNewLen (seq 0 iOldLen) [] ;;
  if iOldLen <? iNewLen
  then list_new_loop new (seq iOldLen (iNewLen - iOldLen)) dRet
  else Ret dRet.

(** The end of both container branches: the test against [iMaxKeys], then
    [if dRet: return dRet], then the final [return None]. *)
Definition finish (old new : value) (iOldLen iNewLen : nat) (dRet : dict)
    : outcome value :=
  let iMaxKeys := and_or iOldLen iNewLen in
  if iMaxKeys <=? length (keys dRet) then Ret (old_new old new)
  else if truthy (VDict dRet) then Ret (VDict dRet)
  else Ret VNone.

Definition revision_generate (old new : value) : outcome value :=
  match old with
  | VDict o =>
      match new with
      | VDict n =>
          dRet <- dict_changes o n ;;
          finish old new (length (keys o)) (length (keys n)) dRet
      | _ => Ret (old_new old new)
      end
  | VList o =>
      match new with
      | VList n =>
          dRet <- list_changes o n ;;
          finish old new (length o) (length n) dRet
      | _ => Ret (old_new old new)
      end
  | _ =>
      if is_dict new || is_list new || negb (scalar_eq new old)
      then Ret (old_new old new)
      else Ret VNone
  end.

End RevisionGenerate.

(** A subclass that supplies the missing name by handing the call on to
    [revision_generate], as deep as [depth] nested calls. *)
Fixpoint Delegating (depth : nat) : pyclass :=
  {| generate_changes :=
       Some (match depth with
             | 0 => fun _ _ => Raise RecursionError
             | S d => revision_generate (Delegating d)
             end) |}.

(** The records of the design document's example scenarios. *)
Definition ex_a1b2 : value := VDict [("a", VInt 1); ("b", VInt 2)].
Definition ex_a1b3 : value := VDict [("a", VInt 1); ("b", VInt 3)].
Definition ex_123 : value := VList [VInt 1; VInt 2; VInt 3].
Definition ex_12 : value := VList [VInt 1; VInt 2].
Definition ex_empty : value := VDict [].
Definition ex_a1 : value := VDict [("a", VInt 1)].
Definition ex_a9b9 : value := VDict [("a", VInt 9); ("b", VInt 9)].

(** The [dRet] of whichever container branch the call takes, when it takes
    one. *)
Definition changes (cls : pyclass) (old new : value) : option (outcome dict) :=
  match old, new with
  | VDict o, VDict n => Some (dict_changes cls o n)
  | VList o, VList n => Some (list_changes cls o n)
  | _, _ => None
  end.

(** [len(v)] of a container. *)
Definition len (v : value) : nat :=
  match v with
  | VDict d => length (keys d)
  | VList l => length l
  | _ => 0
  end.

(* ------------------------------------------------------------------ *)
(** ** Well-formed dicts *)

(** Keys without repetition, as a test that computes. *)
Fixpoint distinct (ks : list string) : bool :=
  match ks with
  | [] => true
  | k :: ks' => negb (existsb (String.eqb k) ks') && distinct ks'
  end.

(** No key of [ks] occurs in [ks'], as a test that computes. *)
Definition apart (ks ks' : list string) : bool :=
  forallb (fun k => negb (existsb (String.eqb k) ks')) ks.


(** [k] is a key of one of two dicts, or the decimal form of an index of one
    of two lists. *)
Definition key_or_index (old new : value) (k : string) : Prop :=
  match old, new with
  | VDict o, VDict n => In k (keys o) \/ In k (keys n)
  | VList o, VList n =>
      exists i, i < Nat.max (length o) (length n) /\ k = str i
  | _, _ => False
  end.

(* ------------------------------------------------------------------ *)
(** ** The same method over the object store

    Lists and dicts are objects: a variable holds a reference to one, two
    variables can hold the same reference, and [d[k] = v] or [l.remove(k)]
    changes the object for everyone who holds it.  This second model keeps
    the objects in a store, so that what the method reads, allocates and
    writes is explicit.  [None], booleans, integers and strings are
    immutable and are held in place. *)

Module Store.

Definition addr : Type := nat.

(** What a variable, a list item or a dict entry holds. *)
Inductive hval : Type :=
| HNone
| HBool (b : bool)
| HInt (z : Z)
| HStr (s : string)
| HRef (a : addr).

(** A list object or a dict object. *)
Inductive cell : Type :=
| CList (items : list hval)
| CDict (entries : list (string * hval)).

(** The store: the object at address [a] is the [a]-th cell. *)
Definition heap : Type := list cell.

Fixpoint heap_set (h : heap) (a : addr) (c : cell) : heap :=
  match h, a with
  | [], _ => []
  | _ :: h', 0 => c :: h'
  | x :: h', S a' => x :: heap_set h' a' c
  end.

(** Computations that read and write the store and may raise. *)
Definition M (A : Type) : Type := heap -> outcome A * heap.

Definition ret {A : Type} (a : A) : M A := fun h => (Ret a, h).

Definition lift {A : Type} (o : outcome A) : M A := fun h => (o, h).

Definition bind {A B : Type} (m : M A) (k : A -> M B) : M B :=
  fun h =>
    match m h with
    | (Ret a, h') => k a h'
    | (Raise e, h') => (Raise e, h')
    end.

Notation "x <~ m ;; k" := (bind m (fun x => k))
  (at level 61, m at next level, right associativity).

(** A new object, at the first free address. *)
Definition alloc (c : cell) : M addr :=
  fun h => (Ret (length h), h ++ [c]).

(** The object at [a].  A reference to nowhere does not arise in Python; the
    model ends such a read with an error. *)
Definition load (a : addr) : M cell :=
  fun h =>
    match nth_error h a with
    | Some c => (Ret c, h)
    | None => (Raise (OtherError "dangling reference"), h)
    end.

(** Overwrites the object at [a]. *)
Definition store (a : addr) (c : cell) : M unit :=
  fun h => (Ret tt, heap_set h a c).

(** The entries of the dict at [a], the items of the list at [a]. *)
Definition entries (a : addr) : M (list (string * hval)) :=
  c <~ load a ;;
  match c with
  | CDict es => ret es
  | CList _ => lift (Raise (OtherError "TypeError"))
  end.

Definition items (a : addr) : M (list hval) :=
  c <~ load a ;;
  match c with
  | CList l => ret l
  | CDict _ => lift (Raise (OtherError "TypeError"))
  end.

(** [isinstance(v, dict)] and [isinstance(v, list)], with the address. *)
Inductive kind : Type :=
| KDict (a : addr)
| KList (a : addr)
| KScalar.

Definition classify (v : hval) : M kind :=
  match v with
  | HRef a =>
      c <~ load a ;;
      ret (match c with CDict _ => KDict a | CList _ => KList a end)
  | _ => ret KScalar
  end.

(** Truth value of an object, as [if v:] tests it. *)
Definition truthy (v : hval) : M bool :=
  match v with
  | HNone => ret false
  | HBool b => ret b
  | HInt z => ret (negb (z =? 0)%Z)
  | HStr s => ret (negb (String.eqb s EmptyString))
  | HRef a =>
      c <~ load a ;;
      ret (match c with
           | CList [] | CDict [] => false
           | _ => true
           end)
  end.

(** [a == b] on values that are neither lists nor dicts. *)
Definition scalar_eq (a b : hval) : bool :=
  match a, b with
  | HNone, HNone => true
  | HBool x, HBool y => Bool.eqb x y
  | HBool x, HInt y => (Z.b2z x =? y)%Z
  | HInt x, HBool y => (x =? Z.b2z y)%Z
  | HInt x, HInt y => (x =? y)%Z
  | HStr x, HStr y => String.eqb x y
  | _, _ => false
  end.

(** [item == k] for a string [k]. *)
Definition is_str (k : string) (item : hval) : bool :=
  match item with
  | HStr s => String.eqb k s
  | _ => false
  end.

(** [d[k] = v] on the dict at [d]. *)
Definition setitem (d : addr) (k : string) (v : hval) : M unit :=
  es <~ entries d ;;
  store d (CDict (dict_set es k v)).

(** The dict display [{ 'old': a, 'new': b }]: a new object each time. *)
Definition old_new (a b : hval) : M hval :=
  t <~ alloc (CDict [("old", a); ("new", b)]) ;;
  ret (HRef t).

Definition method : Type := hval -> hval -> M hval.

Record pyclass : Type := { generate_changes : option method }.

Definition getattr_generate_changes (cls : pyclass) : M method :=
  match generate_changes cls with
  | Some g => ret g
  | None => lift (Raise AttributeError)
  end.

Definition Storage : pyclass := {| generate_changes := None |}.

Section RevisionGenerate.

Variable cls : pyclass.

(** [for k in old:]; [dRet] and [lNewKeys] are the addresses of the two
    local objects.  The keys [ks] are those [old] has when the loop
    starts. *)
Fixpoint dict_old_loop (old new dRet lNewKeys : addr) (ks : list string)
    : M unit :=
  match ks with
  | [] => ret tt
  | k :: ks' =>
      en <~ entries new ;;
      if negb (dict_in k en) then
        eo <~ entries old ;;
        o <~ lift (dict_get eo k) ;;
        t <~ old_new o HNone ;;
        _ <~ setitem dRet k t ;;
        dict_old_loop old new dRet lNewKeys ks'
      else
        g <~ getattr_generate_changes cls ;;
        eo <~ entries old ;;
        o <~ lift (dict_get eo k) ;;
        en' <~ entries new ;;
        n <~ lift (dict_get en' k) ;;
        dTemp <~ g o n ;;
        l <~ items lNewKeys ;;
        l' <~ lift (list_remove (is_str k) l) ;;
        _ <~ store lNewKeys (CList l') ;;
        b <~ truthy dTemp ;;
        _ <~ (if b then setitem dRet k dTemp else ret tt) ;;
        dict_old_loop old new dRet lNewKeys ks'
  end.

(** [for k in lNewKeys:], over the items the list has when the loop
    starts. *)
Fixpoint dict_new_loop (new dRet : addr) (ks : list hval) : M unit :=
  match ks with
  | [] => ret tt
  | item :: ks' =>
      en <~ entries new ;;
      n <~ lift (match item with
                 | HStr k => dict_get en k
                 | _ => Raise KeyError
                 end) ;;
      t <~ old_new HNone n ;;
      _ <~ (match item with
            | HStr k => setitem dRet k t
            | _ => lift (Raise KeyError)
            end) ;;
      dict_new_loop new dRet ks'
  end.

(** [for i in range(iOldLen):] *)
Fixpoint list_old_loop (old new dRet : addr) (iNewLen : nat) (idx : list nat)
    : M unit :=
  match idx with
  | [] => ret tt
  | i :: idx' =>
      if iNewLen <=? i then
        lo <~ items old ;;
        o <~ lift (list_get lo i) ;;
        t <~ old_new o HNone ;;
        _ <~ setitem dRet (str i) t ;;
        list_old_loop old new dRet iNewLen idx'
      else
        g <~ getattr_generate_changes cls ;;
        lo <~ items old ;;
        o <~ lift (list_get lo i) ;;
        ln <~ items new ;;
        n <~ lift (list_get ln i) ;;
        dTemp <~ g o n ;;
        b <~ truthy dTemp ;;
        _ <~ (if b then setitem dRet (str i) dTemp else ret tt) ;;
        list_old_loop old new dRet iNewLen idx'
  end.

(** [for i in range(iOldLen, iNewLen):] *)
Fixpoint list_new_loop (new dRet : addr) (idx : list nat) : M unit :=
  match idx with
  | [] => ret tt
  | i :: idx' =>
      ln <~ items new ;;
      n <~ lift (list_get ln i) ;;
      t <~ old_new HNone n ;;
      _ <~ setitem dRet (str i) t ;;
      list_new_loop new dRet idx'
  end.

(** The end of both container branches. *)
Definition finish (old new : hval) (iOldLen iNewLen : nat) (dRet : addr)
    : M hval :=
  let iMaxKeys := and_or iOldLen iNewLen in
  es <~ entries dRet ;;
  if iMaxKeys <=? length (keys es) then old_new old new
  else
    b <~ truthy (HRef dRet) ;;
    if b then ret (HRef dRet) else ret HNone.

Definition revision_generate (old new : hval) : M hval :=
  ko <~ classify old ;;
  match ko with
  | KDict o =>
      kn <~ classify new ;;
      match kn with
      | KDict n =>
          dRet <~ alloc (CDict []) ;;
          eo <~ entries o ;;
          let iOldLen := length (keys eo) in
          en <~ entries n ;;
          lNewKeys <~ alloc (CList (map HStr (keys en))) ;;
          let iNewLen := length (keys en) in
          _ <~ dict_old_loop o n dRet lNewKeys (keys eo) ;;
          left <~ items lNewKeys ;;
          _ <~ (match left with
                | [] => ret tt
                | _ => dict_new_loop n dRet left
                end) ;;
          finish old new iOldLen iNewLen dRet
      | _ => old_new old new
      end
  | KList o =>
      kn <~ classify new ;;
      match kn with
      | KList n =>
          dRet <~ alloc (CDict []) ;;
          lo <~ items o ;;
          let iOldLen := length lo in
          ln <~ items n ;;
          let iNewLen := length ln in
          _ <~ list_old_loop o n dRet iNewLen (seq 0 iOldLen) ;;
          _ <~ (if iOldLen <? iNewLen
                then list_new_loop n dRet (seq iOldLen (iNewLen - iOldLen))
                else ret tt) ;;
          finish old new iOldLen iNewLen dRet
      | _ => old_new old new
      end
  | KScalar =>
      kn <~ classify new ;;
      match kn with
      | KScalar =>
          if negb (scalar_eq new old) then old_new old new else ret HNone
      | _ => old_new old new
      end
  end.

End RevisionGenerate.

(** A subclass that binds the name to [revision_generate]. *)
Fixpoint Delegating (depth : nat) : pyclass :=
  {| generate_changes :=
       Some (match depth with
             | 0 => fun _ _ => lift (Raise RecursionError)
             | S d => revision_generate (Delegating d)
             end) |}.

End Store.

(* ------------------------------------------------------------------ *)
(** ** Values held in the store *)

(** [represents_in P h x v]: in the store [h] the variable content [v]
    stands for the value [x], and every object that is read to see so has
    its address in [P]. *)
Inductive represents_in (P : Store.addr -> Prop) (h : Store.heap)
    : value -> Store.hval -> Prop :=
| rep_None : represents_in P h VNone Store.HNone
| rep_Bool (b : bool) : represents_in P h (VBool b) (Store.HBool b)
| rep_Int (z : Z) : represents_in P h (VInt z) (Store.HInt z)
| rep_Str (s : string) : represents_in P h (VStr s) (Store.HStr s)
| rep_List (a : Store.addr) (items : list Store.hval) (xs : list value) :
    P a ->
    nth_error h a = Some (Store.CList items) ->
    Forall2 (represents_in P h) xs items ->
    represents_in P h (VList xs) (Store.HRef a)
| rep_Dict (a : Store.addr) (es : list (string * Store.hval)) (d : dict) :
    P a ->
    nth_error h a = Some (Store.CDict es) ->
    Forall2 (fun kx kv => fst kx = fst kv
                          /\ represents_in P h (snd kx) (snd kv)) d es ->
    represents_in P h (VDict d) (Store.HRef a).

(** Entries with the same key and related contents. *)
Definition entry_rel (R : value -> Store.hval -> Prop)
    (kx : string * value) (kv : string * Store.hval) : Prop :=
  fst kx = fst kv /\ R (snd kx) (snd kv).

(** [represents_in] with no restriction on the addresses. *)
Definition represents (h : Store.heap) : value -> Store.hval -> Prop :=
  represents_in (fun _ => True) h.

(** The outcome [s] of a call over the store stands for the outcome [p]:
    the same exception, or a returned content that stands for the returned
    value. *)
Definition outcome_represents (P : Store.addr -> Prop) (h : Store.heap)
    (p : outcome value) (s : outcome Store.hval) : Prop :=
  match p, s with
  | Ret x, Ret v => represents_in P h x v
  | Raise e, Raise e' => e = e'
  | _, _ => False
  end.

(** A method over the store that behaves as the function [g] of the values
    of its arguments: it leaves every object that exists as it is, and its
    outcome stands for the outcome of [g], through objects of the arguments
    and objects it has allocated. *)
Definition method_refines (gs : Store.method) (g : method) : Prop :=
  forall (P : Store.addr -> Prop) (h : Store.heap) (a b : Store.hval)
         (x y : value),
    represents_in P h x a -> represents_in P h y b ->
    exists fresh,
      snd (gs a b h) = h ++ fresh
      /\ outcome_represents (fun c => P c \/ length h <= c) (h ++ fresh)
           (g x y) (fst (gs a b h)).

(** A class over the store and a class over values that agree on
    [generate_changes]: unbound in both, or bound to methods related by
    [method_refines]. *)
Definition class_refines (cs : Store.pyclass) (c : pyclass) : Prop :=
  match Store.generate_changes cs, generate_changes c with
  | None, None => True
  | Some gs, Some g => method_refines gs g
  | _, _ => False
  end.

(** The addresses a stored change may pass through: objects of the
    arguments, in the store [h0] of the start of the call, and objects allocated
    after the [m] local objects of the call. *)
Definition beyond (P : Store.addr -> Prop) (h0 : Store.heap) (m : nat)
    (a : Store.addr) : Prop :=
  (P a /\ a < length h0) \/ length h0 + m <= a.

(** The store in the middle of a call that started in [h0]: the local dict
    [dRet] with entries [esRet], the other local objects [tl], and the
    objects [rest] allocated since. *)
Definition during (h0 : Store.heap) (esRet : list (string * Store.hval))
    (tl rest : Store.heap) : Store.heap :=
  h0 ++ (Store.CDict esRet :: tl) ++ rest.

(** The entries [es] of the local dict stand for the changes [d]. *)
Definition stored (P : Store.addr -> Prop) (h0 : Store.heap) (m : nat)
    (h : Store.heap) (d : dict) (es : list (string * Store.hval)) : Prop :=
  Forall2 (entry_rel (represents_in (beyond P h0 m) h)) d es.

(** The local list [lNewKeys] holding the keys [ks]. *)
Definition keys_cell (ks : list string) : Store.heap :=
  [Store.CList (map Store.HStr ks)].

(* ------------------------------------------------------------------ *)
(** ** Differing keys and indexes, as the design document counts them *)

(** Key [k] of [old] differs: [new] lacks it, or the changes that
    [cls.generate_changes] finds between [old[k]] and [new[k]] are not
    empty. *)
Definition differs (cls : pyclass) (old new : dict) (k : string) : bool :=
  if negb (dict_in k new) then true
  else
    match generate_changes cls, dict_get old k, dict_get new k with
    | Some g, Ret a, Ret b =>
        match g a b with
        | Ret dTemp => truthy dTemp
        | Raise _ => false
        end
    | _, _, _ => false
    end.

(** The differing keys of two dicts: those of [old] that differ, then those
    [new] has and [old] lacks. *)
Definition differing_keys (cls : pyclass) (old new : dict) : list string :=
  filter (differs cls old new) (keys old)
  ++ filter (fun k => negb (dict_in k old)) (keys new).

(** Index [i] of [old] differs: [new] is too short to have it, or the
    changes that [cls.generate_changes] finds between [old[i]] and [new[i]]
    are not empty. *)
Definition differs_at (cls : pyclass) (old new : list value) (i : nat) : bool :=
  if length new <=? i then true
  else
    match generate_changes cls, list_get old i, list_get new i with
    | Some g, Ret a, Ret b =>
        match g a b with
        | Ret dTemp => truthy dTemp
        | Raise _ => false
        end
    | _, _, _ => false
    end.

(** The differing indexes of two lists: those of [old] that differ, then
    those [new] has beyond the length of [old]. *)
Definition differing_indexes (cls : pyclass) (old new : list value) : list nat :=
  filter (differs_at cls old new) (seq 0 (length old))
  ++ seq (length old) (length new - length old).

(** The number of differing keys of two dicts, of differing indexes of two
    lists. *)
Definition differing_count (cls : pyclass) (old new : value) : nat :=
  match old, new with
  | VDict o, VDict n => length (differing_keys cls o n)
  | VList o, VList n => length (differing_indexes cls o n)
  | _, _ => 0
  end.

(** A dict has each of its keys once. *)
Definition distinct_keys (v : value) : Prop :=
  match v with
  | VDict d => NoDup (keys d)
  | _ => True
  end.

(* ------------------------------------------------------------------ *)
(** ** Where the two arguments meet *)

(** A value that is neither a dict nor a list. *)
Definition is_scalar (v : value) : bool :=
  negb (is_dict v) && negb (is_list v).

(** The loops reach the call [cls.generate_changes(...)]: two dicts with a
    key in common, or two lists that both have an index [0]. *)
Definition shares_position (old new : value) : bool :=
  match old, new with
  | VDict o, VDict n => existsb (fun k => dict_in k n) (keys o)
  | VList o, VList n => negb (length o =? 0) && negb (length n =? 0)
  | _, _ => false
  end.

(** [a] and [b] are what [old] and [new] hold under one key of both dicts,
    or at one index of both lists. *)
Definition shared_items (old new a b : value) : Prop :=
  match old, new with
  | VDict o, VDict n => exists k, dict_get o k = Ret a /\ dict_get n k = Ret b
  | VList o, VList n => exists i, list_get o i = Ret a /\ list_get n i = Ret b
  | _, _ => False
  end.

(** Both dicts, both lists, or both neither. *)
Definition same_kind (ko kn : Store.kind) : bool :=
  match ko, kn with
  | Store.KDict _, Store.KDict _ => true
  | Store.KList _, Store.KList _ => true
  | Store.KScalar, Store.KScalar => true
  | _, _ => false
  end.

(** In the store [h], [a] and [b] are what the dicts [old] and [new] hold
    under one key of both, or what the lists [old] and [new] hold at one
    index of both. *)
Definition stored_shared_items (h : Store.heap) (old new a b : Store.hval)
    : Prop :=
  match old, new with
  | Store.HRef ao, Store.HRef an =>
      match nth_error h ao, nth_error h an with
      | Some (Store.CDict eo), Some (Store.CDict en) =>
          exists k, dict_get eo k = Ret a /\ dict_get en k = Ret b
      | Some (Store.CList lo), Some (Store.CList ln) =>
          exists i, list_get lo i = Ret a /\ list_get ln i = Ret b
      | _, _ => False
      end
  | _, _ => False
  end.
(* ------------------------------------------------------------------ *)
(** ** Basic facts *)

Lemma bind_Ret_inv {A B : Type} (m : outcome A) (k : A -> outcome B) (b : B) :
  bind m k = Ret b -> exists a, m = Ret a /\ k a = Ret b.
Proof.
  destruct m as [a | e]; simpl; intros H.
  - exists a; split; [reflexivity | exact H].
  - discriminate H.
Qed.

Lemma and_or_max (x y : nat) : and_or x y = Nat.max x y.
Proof.
  unfold and_or.
  destruct (Nat.ltb_spec y x) as [Hlt | Hge].
  - destruct (Nat.eqb_spec x 0) as [-> | Hx]; [lia | lia].
  - lia.
Qed.

Lemma dict_in_keys {V : Type} (k : string) (d : list (string * V)) :
  dict_in k d = true <-> In k (keys d).
Proof.
  induction d as [| [k' v] d IH]; simpl.
  - split; [discriminate | tauto].
  - destruct (String.eqb_spec k k') as [-> | Hne].
    + split; auto.
    + rewrite IH. split; [auto | intros [H | H]; [congruence | exact H]].
Qed.

Lemma dict_in_false {V : Type} (k : string) (d : list (string * V)) :
  dict_in k d = false <-> ~ In k (keys d).
Proof.
  rewrite <- dict_in_keys. destruct (dict_in k d); split; intros H.
  - discriminate H.
  - exfalso; apply H; reflexivity.
  - discriminate.
  - reflexivity.
Qed.

Lemma dict_get_in {V : Type} (d : list (string * V)) (k : string) :
  In k (keys d) -> exists v, dict_get d k = Ret v /\ In (k, v) d.
Proof.
  induction d as [| [k' v] d IH]; simpl; [tauto |].
  intros H. destruct (String.eqb_spec k k') as [-> | Hne].
  - exists v; auto.
  - destruct H as [H | H]; [congruence |].
    destruct (IH H) as (w & Hw & Hin). exists w; auto.
Qed.

Lemma keys_dict_set {V : Type} (d : list (string * V)) (k : string) (v : V) :
  keys (dict_set d k v) = if dict_in k d then keys d else keys d ++ [k].
Proof.
  induction d as [| [k' v'] d IH]; simpl; [reflexivity |].
  destruct (String.eqb_spec k k') as [-> | Hne]; simpl; [reflexivity |].
  rewrite IH. destruct (dict_in k d); reflexivity.
Qed.

Lemma keys_dict_set_fresh {V : Type} (d : list (string * V)) (k : string) (v : V) :
  ~ In k (keys d) -> keys (dict_set d k v) = keys d ++ [k].
Proof.
  intros H. rewrite keys_dict_set.
  apply dict_in_false in H. rewrite H. reflexivity.
Qed.

Lemma existsb_eqb_In (k : string) (ks : list string) :
  existsb (String.eqb k) ks = true <-> In k ks.
Proof.
  rewrite existsb_exists. split.
  - intros (x & Hin & Heq). apply String.eqb_eq in Heq. subst x. exact Hin.
  - intros Hin. exists k. split; [exact Hin | apply String.eqb_refl].
Qed.

Lemma distinct_NoDup (ks : list string) : distinct ks = true -> NoDup ks.
Proof.
  induction ks as [| k ks IH]; simpl; intros H.
  - constructor.
  - apply andb_prop in H. destruct H as [Hk Hks].
    constructor; [| exact (IH Hks)].
    intros Hin. apply existsb_eqb_In in Hin. rewrite Hin in Hk. discriminate Hk.
Qed.

Lemma apart_spec (ks ks' : list string) :
  apart ks ks' = true -> forall k, In k ks -> ~ In k ks'.
Proof.
  unfold apart. rewrite forallb_forall. intros H k Hin Hin'.
  specialize (H k Hin). apply existsb_eqb_In in Hin'.
  rewrite Hin' in H. discriminate H.
Qed.

(* ------------------------------------------------------------------ *)
(** ** The loops of the dict branch *)

(** Over keys that [new] lacks the first loop never reaches the call to
    [cls.generate_changes]: it appends one entry per key. *)
Lemma dict_old_loop_absent (cls : pyclass) (old new : dict) :
  forall (ks : list string) (dRet : dict) (lNewKeys : list string),
    (forall k, In k ks -> In k (keys old)) ->
    (forall k, In k ks -> ~ In k (keys new)) ->
    NoDup ks ->
    (forall k, In k ks -> ~ In k (keys dRet)) ->
    exists dRet',
      dict_old_loop cls old new ks dRet lNewKeys = Ret (dRet', lNewKeys)
      /\ keys dRet' = keys dRet ++ ks.
Proof.
  induction ks as [| k ks IH]; intros dRet lNewKeys Hold Hnew Hnd Hfresh.
  - exists dRet. simpl. rewrite app_nil_r. auto.
  - simpl.
    assert (Hk : dict_in k new = false)
      by (apply dict_in_false, Hnew; left; reflexivity).
    rewrite Hk. simpl.
    destruct (dict_get_in old k) as (v & Hv & _); [apply Hold; left; reflexivity |].
    rewrite Hv. simpl.
    inversion Hnd as [| ? ? Hnotin Hnd']; subst.
    destruct (IH (dict_set dRet k (old_new v VNone)) lNewKeys)
      as (dRet' & Hrun & Hkeys).
    + intros x Hx. apply Hold. right. exact Hx.
    + intros x Hx. apply Hnew. right. exact Hx.
    + exact Hnd'.
    + intros x Hx. rewrite keys_dict_set_fresh by (apply Hfresh; left; reflexivity).
      rewrite in_app_iff. intros [Hin | [Heq | []]].
      * apply (Hfresh x); [right; exact Hx | exact Hin].
      * subst x. contradiction.
    + exists dRet'. split; [exact Hrun |].
      rewrite Hkeys, keys_dict_set_fresh by (apply Hfresh; left; reflexivity).
      rewrite <- app_assoc. reflexivity.
Qed.

(** The second loop appends one entry per key left in [lNewKeys]. *)
Lemma dict_new_loop_keys (new : dict) :
  forall (ks : list string) (dRet : dict),
    (forall k, In k ks -> In k (keys new)) ->
    NoDup ks ->
    (forall k, In k ks -> ~ In k (keys dRet)) ->
    exists dRet',
      dict_new_loop new ks dRet = Ret dRet' /\ keys dRet' = keys dRet ++ ks.
Proof.
  induction ks as [| k ks IH]; intros dRet Hnew Hnd Hfresh.
  - exists dRet. simpl. rewrite app_nil_r. auto.
  - simpl.
    destruct (dict_get_in new k) as (v & Hv & _); [apply Hnew; left; reflexivity |].
    rewrite Hv. simpl.
    inversion Hnd as [| ? ? Hnotin Hnd']; subst.
    destruct (IH (dict_set dRet k (old_new VNone v))) as (dRet' & Hrun & Hkeys).
    + intros x Hx. apply Hnew. right. exact Hx.
    + exact Hnd'.
    + intros x Hx. rewrite keys_dict_set_fresh by (apply Hfresh; left; reflexivity).
      rewrite in_app_iff. intros [Hin | [Heq | []]].
      * apply (Hfresh x); [right; exact Hx | exact Hin].
      * subst x. contradiction.
    + exists dRet'. split; [exact Hrun |].
      rewrite Hkeys, keys_dict_set_fresh by (apply Hfresh; left; reflexivity).
      rewrite <- app_assoc. reflexivity.
Qed.

(** With no key in common every key of either dict ends up in [dRet]. *)
Lemma dict_changes_disjoint (cls : pyclass) (old new : dict) :
  NoDup (keys old) -> NoDup (keys new) ->
  (forall k, In k (keys old) -> ~ In k (keys new)) ->
  exists dRet,
    dict_changes cls old new = Ret dRet /\ keys dRet = keys old ++ keys new.
Proof.
  intros Hold Hnew Hdisj. unfold dict_changes.
  destruct (dict_old_loop_absent cls old new (keys old) [] (keys new))
    as (d1 & Hrun1 & Hkeys1); auto.
  rewrite Hrun1. simpl in *.
  destruct (dict_new_loop_keys new (keys new) d1) as (d2 & Hrun2 & Hkeys2); auto.
  - intros k Hk Hin. rewrite Hkeys1 in Hin. exact (Hdisj k Hin Hk).
  - destruct (keys new) as [| k ks] eqn:Hks.
    + exists d1. rewrite app_nil_r. auto.
    + exists d2. rewrite Hrun2, Hkeys2, Hkeys1. auto.
Qed.

(** A key in common sends the first loop into the attribute lookup. *)
Lemma dict_old_loop_unbound (cls : pyclass) (old new : dict) :
  generate_changes cls = None ->
  forall (ks : list string) (dRet : dict) (lNewKeys : list string),
    (forall k, In k ks -> In k (keys old)) ->
    (exists k, In k ks /\ In k (keys new)) ->
    dict_old_loop cls old new ks dRet lNewKeys = Raise AttributeError.
Proof.
  intros Hcls. induction ks as [| k ks IH]; intros dRet lNewKeys Hold Hshared.
  - destruct Hshared as (k & [] & _).
  - simpl. destruct (dict_in k new) eqn:Hk; simpl.
    + unfold getattr_generate_changes. rewrite Hcls. reflexivity.
    + destruct (dict_get_in old k) as (v & Hv & _); [apply Hold; left; reflexivity |].
      rewrite Hv. simpl. apply IH.
      * intros x Hx. apply Hold. right. exact Hx.
      * destruct Hshared as (x & [Heq | Hx] & Hxn).
        -- subst x. apply dict_in_keys in Hxn. congruence.
        -- exists x. auto.
Qed.

(* ------------------------------------------------------------------ *)
(** ** The loops of the list branch *)

Lemma list_old_loop_unbound (cls : pyclass) (old new : list value) (dRet : dict) :
  generate_changes cls = None ->
  old <> [] -> new <> [] ->
  list_old_loop cls old new (length new) (seq 0 (length old)) dRet
  = Raise AttributeError.
Proof.
  intros Hcls Hold Hnew.
  destruct old as [| o old]; [congruence |].
  destruct new as [| n new]; [congruence |].
  simpl. unfold getattr_generate_changes. rewrite Hcls. reflexivity.
Qed.

(* ------------------------------------------------------------------ *)
(** ** The end of a container branch *)

Lemma finish_cases (old new : value) (iOldLen iNewLen : nat) (dRet : dict) :
  (Nat.max iOldLen iNewLen <= length (keys dRet) ->
   finish old new iOldLen iNewLen dRet = Ret (old_new old new))
  /\ (length (keys dRet) < Nat.max iOldLen iNewLen -> dRet <> [] ->
      finish old new iOldLen iNewLen dRet = Ret (VDict dRet))
  /\ (length (keys dRet) < Nat.max iOldLen iNewLen -> dRet = [] ->
      finish old new iOldLen iNewLen dRet = Ret VNone).
Proof.
  unfold finish. rewrite and_or_max.
  destruct (Nat.leb_spec (Nat.max iOldLen iNewLen) (length (keys dRet)))
    as [Hle | Hlt].
  - repeat split; intros; try reflexivity; lia.
  - repeat split; intros; try lia.
    + destruct dRet; [congruence | reflexivity].
    + subst dRet. reflexivity.
Qed.

Lemma revision_generate_changes (cls : pyclass) (old new : value) (dRet : dict) :
  changes cls old new = Some (Ret dRet) ->
  revision_generate cls old new = finish old new (len old) (len new) dRet.
Proof.
  unfold changes.
  destruct old; destruct new; try discriminate; intros H;
    injection H as H; simpl; rewrite H; reflexivity.
Qed.

(* ------------------------------------------------------------------ *)
(** ** Where the keys of [dRet] come from *)

Lemma keys_dict_set_incl {V : Type} (d : list (string * V)) (k : string) (v : V)
    (x : string) :
  In x (keys (dict_set d k v)) -> In x (keys d) \/ x = k.
Proof.
  rewrite keys_dict_set. destruct (dict_in k d); [auto |].
  rewrite in_app_iff. simpl. intuition.
Qed.

Lemma dict_old_loop_keys_incl (cls : pyclass) (old new : dict) :
  forall (ks : list string) (dRet : dict) (lNewKeys : list string) r,
    dict_old_loop cls old new ks dRet lNewKeys = Ret r ->
    forall x, In x (keys (fst r)) -> In x (keys dRet) \/ In x ks.
Proof.
  induction ks as [| k ks IH]; simpl; intros dRet lNewKeys r Hrun x Hx.
  - injection Hrun as <-. auto.
  - destruct (dict_in k new); simpl in Hrun.
    + apply bind_Ret_inv in Hrun. destruct Hrun as (g & _ & Hrun).
      apply bind_Ret_inv in Hrun. destruct Hrun as (o & _ & Hrun).
      apply bind_Ret_inv in Hrun. destruct Hrun as (n & _ & Hrun).
      apply bind_Ret_inv in Hrun. destruct Hrun as (dTemp & _ & Hrun).
      apply bind_Ret_inv in Hrun. destruct Hrun as (l' & _ & Hrun).
      destruct (IH _ _ _ Hrun x Hx) as [Hin | Hin]; [| auto].
      destruct (truthy dTemp); [| auto].
      apply keys_dict_set_incl in Hin. intuition.
    + apply bind_Ret_inv in Hrun. destruct Hrun as (o & _ & Hrun).
      destruct (IH _ _ _ Hrun x Hx) as [Hin | Hin]; [| auto].
      apply keys_dict_set_incl in Hin. intuition.
Qed.

Lemma dict_new_loop_keys_incl (new : dict) :
  forall (ks : list string) (dRet dRet' : dict),
    dict_new_loop new ks dRet = Ret dRet' ->
    forall x, In x (keys dRet') -> In x (keys dRet) \/ In x ks.
Proof.
  induction ks as [| k ks IH]; simpl; intros dRet dRet' Hrun x Hx.
  - injection Hrun as <-. auto.
  - apply bind_Ret_inv in Hrun. destruct Hrun as (n & _ & Hrun).
    destruct (IH _ _ Hrun x Hx) as [Hin | Hin]; [| auto].
    apply keys_dict_set_incl in Hin. intuition.
Qed.

Lemma list_remove_incl {A : Type} (is_x : A -> bool) :
  forall (l l' : list A),
    list_remove is_x l = Ret l' -> forall x, In x l' -> In x l.
Proof.
  induction l as [| y l IH]; simpl; intros l' Hrun x Hx; [discriminate |].
  destruct (is_x y).
  - injection Hrun as <-. auto.
  - apply bind_Ret_inv in Hrun. destruct Hrun as (l'' & Hl'' & Hrun).
    injection Hrun as <-. destruct Hx as [-> | Hx]; [auto |].
    right. exact (IH _ Hl'' x Hx).
Qed.

Lemma dict_old_loop_left_incl (cls : pyclass) (old new : dict) :
  forall (ks : list string) (dRet : dict) (lNewKeys : list string) r,
    dict_old_loop cls old new ks dRet lNewKeys = Ret r ->
    forall x, In x (snd r) -> In x lNewKeys.
Proof.
  induction ks as [| k ks IH]; simpl; intros dRet lNewKeys r Hrun x Hx.
  - injection Hrun as <-. exact Hx.
  - destruct (dict_in k new); simpl in Hrun.
    + apply bind_Ret_inv in Hrun. destruct Hrun as (g & _ & Hrun).
      apply bind_Ret_inv in Hrun. destruct Hrun as (o & _ & Hrun).
      apply bind_Ret_inv in Hrun. destruct Hrun as (n & _ & Hrun).
      apply bind_Ret_inv in Hrun. destruct Hrun as (dTemp & _ & Hrun).
      apply bind_Ret_inv in Hrun. destruct Hrun as (l' & Hl' & Hrun).
      eapply list_remove_incl; [exact Hl' |]. exact (IH _ _ _ Hrun x Hx).
    + apply bind_Ret_inv in Hrun. destruct Hrun as (o & _ & Hrun).
      exact (IH _ _ _ Hrun x Hx).
Qed.

Lemma dict_changes_keys_incl (cls : pyclass) (old new dRet : dict) :
  dict_changes cls old new = Ret dRet ->
  forall x, In x (keys dRet) -> In x (keys old) \/ In x (keys new).
Proof.
  unfold dict_changes. intros Hrun x Hx.
  apply bind_Ret_inv in Hrun. destruct Hrun as ([d1 l1] & Hrun1 & Hrun).
  pose proof (dict_old_loop_keys_incl _ _ _ _ _ _ _ Hrun1) as Hk1.
  pose proof (dict_old_loop_left_incl _ _ _ _ _ _ _ Hrun1) as Hl1.
  simpl in Hk1, Hl1.
  destruct l1 as [| k l1].
  - injection Hrun as <-. destruct (Hk1 x Hx) as [[] | Hin]. auto.
  - destruct (dict_new_loop_keys_incl _ _ _ _ Hrun x Hx) as [Hin | Hin].
    + destruct (Hk1 x Hin) as [[] | Hin']. auto.
    + right. apply Hl1. exact Hin.
Qed.

Lemma list_old_loop_keys_incl (cls : pyclass) (old new : list value) (iNewLen : nat) :
  forall (idx : list nat) (dRet dRet' : dict),
    list_old_loop cls old new iNewLen idx dRet = Ret dRet' ->
    forall x, In x (keys dRet') ->
              In x (keys dRet) \/ exists i, In i idx /\ x = str i.
Proof.
  induction idx as [| i idx IH]; simpl; intros dRet dRet' Hrun x Hx.
  - injection Hrun as <-. auto.
  - destruct (iNewLen <=? i); simpl in Hrun.
    + apply bind_Ret_inv in Hrun. destruct Hrun as (o & _ & Hrun).
      destruct (IH _ _ Hrun x Hx) as [Hin | (j & Hj & ->)]; [| eauto].
      apply keys_dict_set_incl in Hin. destruct Hin as [Hin | ->]; eauto.
    + apply bind_Ret_inv in Hrun. destruct Hrun as (g & _ & Hrun).
      apply bind_Ret_inv in Hrun. destruct Hrun as (o & _ & Hrun).
      apply bind_Ret_inv in Hrun. destruct Hrun as (n & _ & Hrun).
      apply bind_Ret_inv in Hrun. destruct Hrun as (dTemp & _ & Hrun).
      destruct (IH _ _ Hrun x Hx) as [Hin | (j & Hj & ->)]; [| eauto].
      destruct (truthy dTemp); [| auto].
      apply keys_dict_set_incl in Hin. destruct Hin as [Hin | ->]; eauto.
Qed.

Lemma list_new_loop_keys_incl (new : list value) :
  forall (idx : list nat) (dRet dRet' : dict),
    list_new_loop new idx dRet = Ret dRet' ->
    forall x, In x (keys dRet') ->
              In x (keys dRet) \/ exists i, In i idx /\ x = str i.
Proof.
  induction idx as [| i idx IH]; simpl; intros dRet dRet' Hrun x Hx.
  - injection Hrun as <-. auto.
  - apply bind_Ret_inv in Hrun. destruct Hrun as (n & _ & Hrun).
    destruct (IH _ _ Hrun x Hx) as [Hin | (j & Hj & ->)]; [| eauto].
    apply keys_dict_set_incl in Hin. destruct Hin as [Hin | ->]; eauto.
Qed.

Lemma list_changes_keys_incl (cls : pyclass) (old new : list value) (dRet : dict) :
  list_changes cls old new = Ret dRet ->
  forall x, In x (keys dRet) ->
            exists i, i < Nat.max (length old) (length new) /\ x = str i.
Proof.
  unfold list_changes. intros Hrun x Hx.
  apply bind_Ret_inv in Hrun. destruct Hrun as (d1 & Hrun1 & Hrun).
  pose proof (list_old_loop_keys_incl _ _ _ _ _ _ _ Hrun1) as Hk1. simpl in Hk1.
  assert (Hfirst : forall y, In y (keys d1) ->
            exists i, i < Nat.max (length old) (length new) /\ y = str i).
  { intros y Hy. destruct (Hk1 y Hy) as [[] | (i & Hi & ->)].
    apply in_seq in Hi. exists i. split; [lia | reflexivity]. }
  destruct (length old <? length new) eqn:Hlt.
  - destruct (list_new_loop_keys_incl _ _ _ _ Hrun x Hx) as [Hin | (i & Hi & ->)].
    + exact (Hfirst x Hin).
    + apply in_seq in Hi. exists i. split; [lia | reflexivity].
  - injection Hrun as <-. exact (Hfirst x Hx).
Qed.

Lemma changes_keys (cls : pyclass) (old new : value) (dRet : dict) :
  changes cls old new = Some (Ret dRet) ->
  forall k, In k (keys dRet) -> key_or_index old new k.
Proof.
  unfold changes, key_or_index.
  destruct old; destruct new; try discriminate; intros H; injection H as H.
  - exact (list_changes_keys_incl _ _ _ _ H).
  - exact (dict_changes_keys_incl _ _ _ _ H).
Qed.


(* ------------------------------------------------------------------ *)
(** ** The keys of [dRet] are the differing keys *)

Lemma dict_in_existsb {V : Type} (k : string) (d : list (string * V)) :
  dict_in k d = existsb (String.eqb k) (keys d).
Proof.
  induction d as [| [k' v] d IH]; simpl; [reflexivity |].
  destruct (String.eqb k k'); [reflexivity | exact IH].
Qed.

Lemma filter_filter {A : Type} (f g : A -> bool) (l : list A) :
  filter f (filter g l) = filter (fun x => g x && f x) l.
Proof.
  induction l as [| x l IH]; simpl; [reflexivity |].
  destruct (g x); simpl; [destruct (f x) |]; rewrite IH; reflexivity.
Qed.

Lemma filter_all {A : Type} (f : A -> bool) (l : list A) :
  (forall x, In x l -> f x = true) -> filter f l = l.
Proof.
  induction l as [| x l IH]; simpl; intros H; [reflexivity |].
  rewrite (H x) by (left; reflexivity). f_equal. apply IH. auto.
Qed.

(** On a list without repetition [remove] is a filter. *)
Lemma list_remove_NoDup (k : string) :
  forall l l' : list string,
    NoDup l -> list_remove (String.eqb k) l = Ret l' ->
    l' = filter (fun x => negb (String.eqb k x)) l.
Proof.
  induction l as [| y l IH]; simpl; intros l' Hnd Hrun; [discriminate |].
  inversion Hnd as [| ? ? Hy Hnd']; subst.
  destruct (String.eqb_spec k y) as [-> | Hne]; simpl.
  - injection Hrun as <-. symmetry. apply filter_all.
    intros x Hx. destruct (String.eqb_spec y x) as [-> | _]; [contradiction |].
    reflexivity.
  - apply bind_Ret_inv in Hrun. destruct Hrun as (l'' & Hl'' & Hrun).
    injection Hrun as <-. f_equal. exact (IH _ Hnd' Hl'').
Qed.

Lemma NoDup_filter_str (f : string -> bool) (l : list string) :
  NoDup l -> NoDup (filter f l).
Proof.
  induction 1 as [| x l Hx _ IH]; simpl; [constructor |].
  destruct (f x); [| exact IH].
  constructor; [| exact IH]. rewrite filter_In. tauto.
Qed.

Lemma dict_old_loop_differing (cls : pyclass) (old new : dict) :
  forall (ks : list string) (dRet : dict) (lNew : list string) r,
    NoDup ks ->
    (forall k, In k ks -> ~ In k (keys dRet)) ->
    NoDup lNew ->
    dict_old_loop cls old new ks dRet lNew = Ret r ->
    keys (fst r) = keys dRet ++ filter (differs cls old new) ks
    /\ snd r
       = filter (fun x => negb (existsb (String.eqb x)
                                  (filter (fun k => dict_in k new) ks))) lNew.
Proof.
  induction ks as [| k ks IH]; intros dRet lNew r Hks Hfresh HlNew Hrun.
  - simpl in *. injection Hrun as <-. simpl. rewrite app_nil_r. split; [reflexivity |].
    symmetry. apply filter_all. reflexivity.
  - inversion Hks as [| ? ? Hk Hks']; subst.
    assert (Hfresh_k : ~ In k (keys dRet)) by (apply Hfresh; left; reflexivity).
    assert (Hfresh' : forall v k', In k' ks ->
              ~ In k' (keys (dict_set dRet k v))).
    { intros v k' Hk' Hin. apply keys_dict_set_incl in Hin.
      destruct Hin as [Hin | ->]; [| contradiction].
      apply (Hfresh k'); [right; exact Hk' | exact Hin]. }
    cbn [dict_old_loop] in Hrun. cbn [filter]. unfold differs at 1.
    destruct (dict_in k new) eqn:Hin; cbn [negb] in *.
    + apply bind_Ret_inv in Hrun. destruct Hrun as (g & Hg & Hrun).
      apply bind_Ret_inv in Hrun. destruct Hrun as (a & Ha & Hrun).
      apply bind_Ret_inv in Hrun. destruct Hrun as (b & Hb & Hrun).
      apply bind_Ret_inv in Hrun. destruct Hrun as (dTemp & Ht & Hrun).
      apply bind_Ret_inv in Hrun. destruct Hrun as (lNew1 & Hrm & Hrun).
      unfold getattr_generate_changes in Hg.
      destruct (generate_changes cls) as [g' |]; [| discriminate].
      injection Hg as ->. rewrite Ha, Hb, Ht.
      pose proof (list_remove_NoDup k _ _ HlNew Hrm) as HlNew1.
      assert (Hnd1 : NoDup lNew1) by (subst lNew1; apply NoDup_filter_str; exact HlNew).
      assert (Hleft : forall r0 : dict * list string,
        snd r0 = filter (fun x => negb (existsb (String.eqb x)
                                   (filter (fun k0 => dict_in k0 new) ks))) lNew1 ->
        snd r0 = filter (fun x => negb (existsb (String.eqb x)
                                   (k :: filter (fun k0 => dict_in k0 new) ks))) lNew).
      { intros r0 ->. subst lNew1. rewrite filter_filter. apply filter_ext.
        intros x. cbn [existsb]. rewrite (String.eqb_sym x k), negb_orb.
        reflexivity. }
      destruct (truthy dTemp).
      * destruct (IH _ _ _ Hks' (Hfresh' dTemp) Hnd1 Hrun) as [Hkeys Hsnd].
        split; [| exact (Hleft _ Hsnd)].
        rewrite Hkeys, keys_dict_set_fresh by exact Hfresh_k.
        rewrite <- app_assoc. reflexivity.
      * destruct (IH _ _ _ Hks' (fun k' Hk' => Hfresh k' (or_intror Hk')) Hnd1 Hrun)
          as [Hkeys Hsnd].
        split; [exact Hkeys | exact (Hleft _ Hsnd)].
    + apply bind_Ret_inv in Hrun. destruct Hrun as (a & Ha & Hrun).
      destruct (IH _ _ _ Hks' (Hfresh' (old_new a VNone)) HlNew Hrun)
        as [Hkeys Hsnd].
      split; [| exact Hsnd].
      rewrite Hkeys, keys_dict_set_fresh by exact Hfresh_k.
      rewrite <- app_assoc. reflexivity.
Qed.

(** With distinct keys in both dicts, the keys of [dRet] are the differing
    keys, in order. *)
Lemma dict_changes_differing (cls : pyclass) (old new dRet : dict) :
  NoDup (keys old) -> NoDup (keys new) ->
  dict_changes cls old new = Ret dRet ->
  keys dRet = differing_keys cls old new.
Proof.
  intros Hold Hnew Hrun. unfold dict_changes in Hrun.
  apply bind_Ret_inv in Hrun. destruct Hrun as ([d1 l1] & Hrun1 & Hrun).
  destruct (dict_old_loop_differing cls old new (keys old) [] (keys new) _ Hold
              (fun _ _ H => H) Hnew Hrun1) as [Hkeys1 Hl1].
  cbn [fst snd] in Hkeys1, Hl1.
  change (keys (@nil (string * value))) with (@nil string) in Hkeys1.
  cbn [app] in Hkeys1.
  assert (Hleft : l1 = filter (fun k => negb (dict_in k old)) (keys new)).
  { rewrite Hl1. apply filter_ext_in. intros x Hx. f_equal.
    rewrite dict_in_existsb.
    destruct (existsb (String.eqb x) (keys old)) eqn:Hex.
    - apply existsb_eqb_In in Hex. apply existsb_eqb_In.
      apply filter_In. split; [exact Hex |]. apply dict_in_keys. exact Hx.
    - destruct (existsb (String.eqb x)
                  (filter (fun k => dict_in k new) (keys old))) eqn:Hex';
        [| reflexivity].
      apply existsb_eqb_In, filter_In in Hex'. destruct Hex' as [Hin _].
      apply existsb_eqb_In in Hin. congruence. }
  unfold differing_keys. rewrite <- Hleft.
  destruct l1 as [| k l1].
  - injection Hrun as <-. rewrite app_nil_r. exact Hkeys1.
  - destruct (dict_new_loop_keys new (k :: l1) d1) as (d2 & Hrun2 & Hkeys2).
    + intros x Hx. rewrite Hleft in Hx. apply filter_In in Hx. tauto.
    + rewrite Hleft. apply NoDup_filter_str. exact Hnew.
    + intros x Hx Hin. rewrite Hleft in Hx. apply filter_In in Hx.
      destruct Hx as [_ Hx]. rewrite Hkeys1 in Hin. apply filter_In in Hin.
      destruct Hin as [Hin _]. apply dict_in_keys in Hin.
      rewrite Hin in Hx. discriminate Hx.
    + rewrite Hrun2 in Hrun. injection Hrun as <-.
      rewrite Hkeys2, Hkeys1. reflexivity.
Qed.

(** [str] gives different strings for different indexes. *)
Lemma str_inj (i j : nat) : str i = str j -> i = j.
Proof.
  unfold str. intros H.
  apply DecimalNat.Unsigned.to_uint_inj.
  assert (Hs : Some (Nat.to_uint i) = Some (Nat.to_uint j)).
  { rewrite <- (NilEmpty.usu (Nat.to_uint i)), <- (NilEmpty.usu (Nat.to_uint j)).
    rewrite H. reflexivity. }
  injection Hs as Hs. exact Hs.
Qed.

Lemma in_map_str (i : nat) (l : list nat) : In (str i) (map str l) -> In i l.
Proof.
  rewrite in_map_iff. intros (j & Hj & Hin). apply str_inj in Hj. congruence.
Qed.

Lemma list_old_loop_differing (cls : pyclass) (old new : list value) :
  forall (idx : list nat) (dRet dRet' : dict),
    NoDup idx ->
    (forall i, In i idx -> ~ In (str i) (keys dRet)) ->
    list_old_loop cls old new (length new) idx dRet = Ret dRet' ->
    keys dRet' = keys dRet ++ map str (filter (differs_at cls old new) idx).
Proof.
  induction idx as [| i idx IH]; intros dRet dRet' Hidx Hfresh Hrun.
  - simpl in *. injection Hrun as <-. rewrite app_nil_r. reflexivity.
  - inversion Hidx as [| ? ? Hi Hidx']; subst.
    assert (Hfresh_i : ~ In (str i) (keys dRet)) by (apply Hfresh; left; reflexivity).
    assert (Hfresh' : forall v j, In j idx ->
              ~ In (str j) (keys (dict_set dRet (str i) v))).
    { intros v j Hj Hin. apply keys_dict_set_incl in Hin.
      destruct Hin as [Hin | Heq].
      - apply (Hfresh j); [right; exact Hj | exact Hin].
      - apply str_inj in Heq. subst j. contradiction. }
    cbn [list_old_loop] in Hrun. cbn [filter]. unfold differs_at at 1.
    destruct (length new <=? i).
    + apply bind_Ret_inv in Hrun. destruct Hrun as (a & Ha & Hrun).
      rewrite (IH _ _ Hidx' (Hfresh' (old_new a VNone)) Hrun).
      rewrite keys_dict_set_fresh by exact Hfresh_i.
      rewrite <- app_assoc. reflexivity.
    + apply bind_Ret_inv in Hrun. destruct Hrun as (g & Hg & Hrun).
      apply bind_Ret_inv in Hrun. destruct Hrun as (a & Ha & Hrun).
      apply bind_Ret_inv in Hrun. destruct Hrun as (b & Hb & Hrun).
      apply bind_Ret_inv in Hrun. destruct Hrun as (dTemp & Ht & Hrun).
      unfold getattr_generate_changes in Hg.
      destruct (generate_changes cls) as [g' |]; [| discriminate].
      injection Hg as ->. rewrite Ha, Hb, Ht.
      destruct (truthy dTemp).
      * rewrite (IH _ _ Hidx' (Hfresh' dTemp) Hrun).
        rewrite keys_dict_set_fresh by exact Hfresh_i.
        rewrite <- app_assoc. reflexivity.
      * exact (IH _ _ Hidx' (fun j Hj => Hfresh j (or_intror Hj)) Hrun).
Qed.

Lemma list_new_loop_indexes (new : list value) :
  forall (idx : list nat) (dRet dRet' : dict),
    NoDup idx ->
    (forall i, In i idx -> ~ In (str i) (keys dRet)) ->
    list_new_loop new idx dRet = Ret dRet' ->
    keys dRet' = keys dRet ++ map str idx.
Proof.
  induction idx as [| i idx IH]; intros dRet dRet' Hidx Hfresh Hrun.
  - simpl in *. injection Hrun as <-. rewrite app_nil_r. reflexivity.
  - inversion Hidx as [| ? ? Hi Hidx']; subst.
    cbn [list_new_loop] in Hrun.
    apply bind_Ret_inv in Hrun. destruct Hrun as (b & Hb & Hrun).
    assert (Hfresh' : forall j, In j idx ->
              ~ In (str j) (keys (dict_set dRet (str i) (old_new VNone b)))).
    { intros j Hj Hin. apply keys_dict_set_incl in Hin.
      destruct Hin as [Hin | Heq].
      - apply (Hfresh j); [right; exact Hj | exact Hin].
      - apply str_inj in Heq. subst j. contradiction. }
    rewrite (IH _ _ Hidx' Hfresh' Hrun).
    rewrite keys_dict_set_fresh by (apply Hfresh; left; reflexivity).
    rewrite <- app_assoc. reflexivity.
Qed.

(** The keys of [dRet] are the decimal forms of the differing indexes, in
    order. *)
Lemma list_changes_differing (cls : pyclass) (old new : list value) (dRet : dict) :
  list_changes cls old new = Ret dRet ->
  keys dRet = map str (differing_indexes cls old new).
Proof.
  unfold list_changes, differing_indexes. intros Hrun.
  apply bind_Ret_inv in Hrun. destruct Hrun as (d1 & Hrun1 & Hrun).
  pose proof (list_old_loop_differing cls old new (seq 0 (length old)) [] d1
                (seq_NoDup (length old) 0) (fun _ _ H => H) Hrun1) as Hkeys1.
  change (keys (@nil (string * value))) with (@nil string) in Hkeys1.
  cbn [app] in Hkeys1.
  rewrite map_app.
  destruct (Nat.ltb_spec (length old) (length new)) as [Hlt | Hge].
  - assert (Hfresh : forall i, In i (seq (length old) (length new - length old)) ->
              ~ In (str i) (keys d1)).
    { intros i Hi Hin. rewrite Hkeys1 in Hin. apply in_map_str in Hin.
      apply filter_In in Hin. destruct Hin as [Hin _].
      apply in_seq in Hi. apply in_seq in Hin. lia. }
    rewrite (list_new_loop_indexes new _ _ _ (seq_NoDup _ _) Hfresh Hrun).
    rewrite Hkeys1. reflexivity.
  - injection Hrun as <-.
    replace (length new - length old) with 0 by lia.
    simpl. rewrite app_nil_r. exact Hkeys1.
Qed.

(** The number of keys of [dRet] is the number of differing keys or
    indexes. *)
Lemma changes_count (cls : pyclass) (old new : value) (dRet : dict) :
  distinct_keys old -> distinct_keys new ->
  changes cls old new = Some (Ret dRet) ->
  length (keys dRet) = differing_count cls old new.
Proof.
  unfold changes, differing_count.
  destruct old; destruct new; try discriminate; simpl distinct_keys;
    intros Hold Hnew H; injection H as H.
  - rewrite (list_changes_differing _ _ _ _ H). apply length_map.
  - rewrite (dict_changes_differing _ _ _ _ Hold Hnew H). reflexivity.
Qed.

(* ------------------------------------------------------------------ *)
(** ** What [dRet] holds under each key *)

Lemma dict_get_set_same {V : Type} (d : list (string * V)) (k : string) (v : V) :
  dict_get (dict_set d k v) k = Ret v.
Proof.
  induction d as [| [k' v'] d IH]; simpl.
  - rewrite String.eqb_refl. reflexivity.
  - destruct (String.eqb_spec k k') as [-> | Hne]; simpl.
    + rewrite String.eqb_refl. reflexivity.
    + destruct (String.eqb_spec k k'); [contradiction | exact IH].
Qed.

Lemma dict_get_set_other {V : Type} (d : list (string * V)) (k k' : string) (v : V) :
  k' <> k -> dict_get (dict_set d k v) k' = dict_get d k'.
Proof.
  intros Hne. induction d as [| [k0 v0] d IH]; simpl.
  - destruct (String.eqb_spec k' k); [contradiction | reflexivity].
  - destruct (String.eqb_spec k k0) as [-> | Hk]; simpl.
    + destruct (String.eqb_spec k' k0); [contradiction | reflexivity].
    + destruct (String.eqb k' k0); [reflexivity | exact IH].
Qed.






Lemma list_old_loop_other (cls : pyclass) (old new : list value) (iNewLen : nat) :
  forall (idx : list nat) (dRet dRet' : dict),
    list_old_loop cls old new iNewLen idx dRet = Ret dRet' ->
    forall i, ~ In i idx -> dict_get dRet' (str i) = dict_get dRet (str i).
Proof.
  induction idx as [| i0 idx IH]; intros dRet dRet' Hrun i Hi.
  - simpl in Hrun. injection Hrun as <-. reflexivity.
  - assert (Hne : str i <> str i0).
    { intros Heq. apply str_inj in Heq. subst i0. apply Hi. left. reflexivity. }
    assert (Hi' : ~ In i idx) by (intros H; apply Hi; right; exact H).
    cbn [list_old_loop] in Hrun. destruct (iNewLen <=? i0).
    + apply bind_Ret_inv in Hrun. destruct Hrun as (a & _ & Hrun).
      rewrite (IH _ _ Hrun i Hi'). apply dict_get_set_other. exact Hne.
    + apply bind_Ret_inv in Hrun. destruct Hrun as (g & _ & Hrun).
      apply bind_Ret_inv in Hrun. destruct Hrun as (a & _ & Hrun).
      apply bind_Ret_inv in Hrun. destruct Hrun as (b & _ & Hrun).
      apply bind_Ret_inv in Hrun. destruct Hrun as (dTemp & _ & Hrun).
      rewrite (IH _ _ Hrun i Hi').
      destruct (truthy dTemp); [apply dict_get_set_other; exact Hne | reflexivity].
Qed.

Lemma list_new_loop_other (new : list value) :
  forall (idx : list nat) (dRet dRet' : dict),
    list_new_loop new idx dRet = Ret dRet' ->
    forall i, ~ In i idx -> dict_get dRet' (str i) = dict_get dRet (str i).
Proof.
  induction idx as [| i0 idx IH]; intros dRet dRet' Hrun i Hi.
  - simpl in Hrun. injection Hrun as <-. reflexivity.
  - assert (Hne : str i <> str i0).
    { intros Heq. apply str_inj in Heq. subst i0. apply Hi. left. reflexivity. }
    assert (Hi' : ~ In i idx) by (intros H; apply Hi; right; exact H).
    cbn [list_new_loop] in Hrun.
    apply bind_Ret_inv in Hrun. destruct Hrun as (b & _ & Hrun).
    rewrite (IH _ _ Hrun i Hi'). apply dict_get_set_other. exact Hne.
Qed.

Lemma list_old_loop_records (cls : pyclass) (old new : list value) (iNewLen : nat) :
  forall (idx : list nat) (dRet dRet' : dict),
    NoDup idx ->
    list_old_loop cls old new iNewLen idx dRet = Ret dRet' ->
    forall i, In i idx ->
      (iNewLen <= i ->
       exists a, list_get old i = Ret a
                 /\ dict_get dRet' (str i) = Ret (old_new a VNone))
      /\ (i < iNewLen ->
          exists g a b dTemp,
            generate_changes cls = Some g
            /\ list_get old i = Ret a /\ list_get new i = Ret b
            /\ g a b = Ret dTemp
            /\ (truthy dTemp = true -> dict_get dRet' (str i) = Ret dTemp)).
Proof.
  induction idx as [| i0 idx IH]; intros dRet dRet' Hidx Hrun i Hi; [destruct Hi |].
  inversion Hidx as [| ? ? Hi0 Hidx']; subst.
  cbn [list_old_loop] in Hrun.
  destruct (Nat.leb_spec iNewLen i0) as [Hle | Hlt].
  - apply bind_Ret_inv in Hrun. destruct Hrun as (a & Ha & Hrun).
    destruct Hi as [<- | Hi]; [| exact (IH _ _ Hidx' Hrun i Hi)].
    split; [| lia]. intros _. exists a. split; [exact Ha |].
    rewrite (list_old_loop_other _ _ _ _ _ _ _ Hrun i0 Hi0).
    apply dict_get_set_same.
  - apply bind_Ret_inv in Hrun. destruct Hrun as (g & Hg & Hrun).
    apply bind_Ret_inv in Hrun. destruct Hrun as (a & Ha & Hrun).
    apply bind_Ret_inv in Hrun. destruct Hrun as (b & Hb & Hrun).
    apply bind_Ret_inv in Hrun. destruct Hrun as (dTemp & Ht & Hrun).
    destruct Hi as [<- | Hi]; [| exact (IH _ _ Hidx' Hrun i Hi)].
    split; [lia |]. intros _.
    unfold getattr_generate_changes in Hg.
    destruct (generate_changes cls) as [g' |]; [| discriminate].
    injection Hg as ->. exists g, a, b, dTemp. repeat split; try assumption.
    intros Htrue. rewrite Htrue in Hrun.
    rewrite (list_old_loop_other _ _ _ _ _ _ _ Hrun i0 Hi0).
    apply dict_get_set_same.
Qed.

Lemma list_new_loop_records (new : list value) :
  forall (idx : list nat) (dRet dRet' : dict),
    NoDup idx ->
    list_new_loop new idx dRet = Ret dRet' ->
    forall i, In i idx ->
      exists b, list_get new i = Ret b
                /\ dict_get dRet' (str i) = Ret (old_new VNone b).
Proof.
  induction idx as [| i0 idx IH]; intros dRet dRet' Hidx Hrun i Hi; [destruct Hi |].
  inversion Hidx as [| ? ? Hi0 Hidx']; subst.
  cbn [list_new_loop] in Hrun.
  apply bind_Ret_inv in Hrun. destruct Hrun as (b & Hb & Hrun).
  destruct Hi as [<- | Hi]; [| exact (IH _ _ Hidx' Hrun i Hi)].
  exists b. split; [exact Hb |].
  rewrite (list_new_loop_other _ _ _ _ Hrun i0 Hi0).
  apply dict_get_set_same.
Qed.

(** The list branch, index by index: when the loops are done [dRet] holds,
    under [str(i)], [{'old': old[i], 'new': None}] for an index only [old]
    has, [{'old': None, 'new': new[i]}] for an index only [new] has, and
    for an index of both what [cls.generate_changes] has returned for
    [old[i]] and [new[i]], provided that is not empty. *)
Lemma list_changes_records (cls : pyclass) (old new : list value) (dRet : dict) :
  list_changes cls old new = Ret dRet ->
  forall i,
    (i < length old -> length new <= i ->
     exists a, list_get old i = Ret a
               /\ dict_get dRet (str i) = Ret (old_new a VNone))
    /\ (length old <= i -> i < length new ->
        exists b, list_get new i = Ret b
                  /\ dict_get dRet (str i) = Ret (old_new VNone b))
    /\ (i < length old -> i < length new ->
        exists g a b dTemp,
          generate_changes cls = Some g
          /\ list_get old i = Ret a /\ list_get new i = Ret b
          /\ g a b = Ret dTemp
          /\ (truthy dTemp = true -> dict_get dRet (str i) = Ret dTemp)
          /\ (truthy dTemp = false -> ~ In (str i) (keys dRet))).
Proof.
  intros Hrun i.
  pose proof (list_changes_differing cls old new dRet Hrun) as Hkeys.
  unfold list_changes in Hrun.
  apply bind_Ret_inv in Hrun. destruct Hrun as (d1 & Hrun1 & Hrun).
  assert (Hkeep : i < length old -> dict_get dRet (str i) = dict_get d1 (str i)).
  { intros Hi. destruct (length old <? length new).
    - apply (list_new_loop_other _ _ _ _ Hrun). rewrite in_seq. lia.
    - injection Hrun as <-. reflexivity. }
  pose proof (list_old_loop_records cls old new (length new) _ _ _
                (seq_NoDup (length old) 0) Hrun1 i) as Hrec.
  split; [| split].
  - intros Hio Hin. destruct Hrec as [Habs _]; [apply in_seq; lia |].
    destruct (Habs Hin) as (a & Ha & Hd).
    exists a. split; [exact Ha |]. rewrite (Hkeep Hio). exact Hd.
  - intros Hio Hin.
    destruct (Nat.ltb_spec (length old) (length new)) as [Hlt | Hge]; [| lia].
    apply (list_new_loop_records _ _ _ _ (seq_NoDup _ _) Hrun). apply in_seq. lia.
  - intros Hio Hin. destruct Hrec as [_ Hboth]; [apply in_seq; lia |].
    destruct (Hboth Hin) as (g & a & b & dTemp & Hg & Ha & Hb & Ht & Hd).
    exists g, a, b, dTemp. repeat split; try assumption.
    + intros Htrue. rewrite (Hkeep Hio). exact (Hd Htrue).
    + intros Hfalse Hmem. rewrite Hkeys in Hmem. apply in_map_str in Hmem.
      unfold differing_indexes in Hmem. apply in_app_or in Hmem.
      destruct Hmem as [Hmem | Hmem].
      * apply filter_In in Hmem. destruct Hmem as [_ Hmem].
        unfold differs_at in Hmem.
        destruct (Nat.leb_spec (length new) i) as [Hle | _]; [lia |].
        rewrite Hg, Ha, Hb, Ht in Hmem. congruence.
      * apply in_seq in Hmem. lia.
Qed.
(* ------------------------------------------------------------------ *)
(** ** Properties of [revision_generate] *)

(** C1.  The design document has [revision_generate(x, x)] return [None] for
    every [x], the empty dict included.  The method does otherwise on two
    accounts.  Two empty dicts, or two empty lists, have no differing key
    and [iMaxKeys] is [0], so the test [len(dRet.keys()) >= iMaxKeys] holds
    and the call returns [{'old': x, 'new': x}], whatever the class.  And on
    [Storage] a non-empty dict compared with itself ends in the
    [AttributeError] of the lookup [cls.generate_changes]. *)
Theorem unchanged_input_not_None :
  (forall cls, revision_generate cls (VDict []) (VDict [])
               = Ret (old_new (VDict []) (VDict [])))
  /\ (forall cls, revision_generate cls (VList []) (VList [])
                  = Ret (old_new (VList []) (VList [])))
  /\ revision_generate Storage ex_a1 ex_a1 = Raise AttributeError.
Proof.
  repeat split; reflexivity.
Qed.

(** C2.  The design document has [revision_generate] return a result on
    every pair of inputs.  On [Storage] the call with [{"a": 1}] for both
    arguments raises [AttributeError], and so does the call with the lists
    [[1, 2, 3]] and [[1, 2]]. *)
Theorem revision_generate_raises :
  revision_generate Storage ex_a1 ex_a1 = Raise AttributeError
  /\ revision_generate Storage ex_123 ex_12 = Raise AttributeError.
Proof.
  split; reflexivity.
Qed.

(** C3.  The design document's first scenario,
    [revision_generate({"a":1,"b":2}, {"a":1,"b":3})], is to return
    [{"b": {"old":2,"new":3}}].  On [Storage] the key ["a"] is in both dicts,
    so the loop calls [cls.generate_changes] and the call raises
    [AttributeError].  A class that binds the name to [revision_generate]
    returns the result of the scenario. *)
Theorem dict_scenario_raises :
  revision_generate Storage ex_a1b2 ex_a1b3 = Raise AttributeError
  /\ revision_generate (Delegating 1) ex_a1b2 ex_a1b3
     = Ret (VDict [("b", old_new (VInt 2) (VInt 3))]).
Proof.
  split; reflexivity.
Qed.

(** C4.  The design document's second scenario,
    [revision_generate({"a":1,"b":2}, {"a":9,"b":9})], has two differing
    keys out of two and is to collapse to
    [{"old":{"a":1,"b":2},"new":{"a":9,"b":9}}].  On [Storage] the key ["a"]
    is in both dicts, so the loop calls [cls.generate_changes] before any
    key is counted, and the call raises [AttributeError]: neither the pair
    nor an itemized dict is returned.  A class that binds the name to
    [revision_generate] returns the pair of the scenario. *)
Theorem collapse_scenario_raises :
  revision_generate Storage ex_a1b2 ex_a9b9 = Raise AttributeError
  /\ revision_generate (Delegating 1) ex_a1b2 ex_a9b9
     = Ret (VDict [("old", VDict [("a", VInt 1); ("b", VInt 2)]);
                   ("new", VDict [("a", VInt 9); ("b", VInt 9)])]).
Proof.
  split; reflexivity.
Qed.

(** The test against [iMaxKeys], for the calls whose loops return: when
    both arguments are dicts, or both are lists, and the loops have produced
    [dRet], the number of keys of [dRet] is the number of differing keys
    (or indexes).  When that number reaches [max(len(old), len(new))] the
    result is exactly [{'old': old, 'new': new}]; below it the result is
    [dRet] itself, the itemized changes, which the method hands out as
    [None] when no key differs. *)
Theorem collapse_law (cls : pyclass) (old new : value) (dRet : dict) :
  distinct_keys old -> distinct_keys new ->
  changes cls old new = Some (Ret dRet) ->
  length (keys dRet) = differing_count cls old new
  /\ (Nat.max (len old) (len new) <= differing_count cls old new ->
      revision_generate cls old new = Ret (old_new old new))
  /\ (differing_count cls old new < Nat.max (len old) (len new) ->
      0 < differing_count cls old new ->
      revision_generate cls old new = Ret (VDict dRet))
  /\ (differing_count cls old new < Nat.max (len old) (len new) ->
      differing_count cls old new = 0 ->
      revision_generate cls old new = Ret VNone).
Proof.
  intros Hold Hnew H.
  pose proof (changes_count cls old new dRet Hold Hnew H) as Hcount.
  rewrite (revision_generate_changes _ _ _ _ H), <- Hcount.
  destruct (finish_cases old new (len old) (len new) dRet) as (Hge & Hlt & Hnone).
  repeat split.
  - exact Hge.
  - intros Hbelow Hpos. apply Hlt; [exact Hbelow |].
    intros ->. simpl in Hpos. lia.
  - intros Hbelow Hzero. apply Hnone; [exact Hbelow |].
    destruct dRet; [reflexivity | discriminate Hzero].
Qed.

Lemma collapse_law_witness :
  distinct_keys ex_a1b2 /\ distinct_keys ex_a1b3
  /\ changes (Delegating 1) ex_a1b2 ex_a1b3
     = Some (Ret [("b", old_new (VInt 2) (VInt 3))])
  /\ differing_count (Delegating 1) ex_a1b2 ex_a1b3 = 1
  /\ revision_generate (Delegating 1) ex_a1b2 ex_a1b3
     = Ret (VDict [("b", old_new (VInt 2) (VInt 3))]).
Proof.
  assert (Hold : distinct_keys ex_a1b2) by (apply distinct_NoDup; reflexivity).
  assert (Hnew : distinct_keys ex_a1b3) by (apply distinct_NoDup; reflexivity).
  assert (Hc : changes (Delegating 1) ex_a1b2 ex_a1b3
               = Some (Ret [("b", old_new (VInt 2) (VInt 3))]))
    by reflexivity.
  split; [exact Hold |]. split; [exact Hnew |]. split; [exact Hc |].
  split; [reflexivity |].
  destruct (collapse_law (Delegating 1) ex_a1b2 ex_a1b3 _ Hold Hnew Hc)
    as (_ & _ & Hitem & _).
  apply Hitem; vm_compute; lia.
Defined.

(** C5.  The design document's third scenario,
    [revision_generate([1,2,3], [1,2])], is to return
    [{"2": {"old":3,"new":null}}].  On [Storage] index [0] is in both lists,
    so the loop calls [cls.generate_changes] and the call raises
    [AttributeError].  A class that binds the name to [revision_generate]
    returns the result of the scenario. *)
Theorem list_scenario_raises :
  revision_generate Storage ex_123 ex_12 = Raise AttributeError
  /\ revision_generate (Delegating 1) ex_123 ex_12
     = Ret (VDict [("2", old_new (VInt 3) VNone)]).
Proof.
  split; reflexivity.
Qed.

(** C6.  Mismatched kinds: when [old] is a dict and [new] is not, or [old]
    is a list and [new] is not, or [old] is neither and [new] is a dict or a
    list, the result is exactly [{'old': old, 'new': new}], for every class
    and whatever the values are. *)
Theorem kind_mismatch_terminal (cls : pyclass) (old new : value) :
  (is_dict old = true /\ is_dict new = false)
  \/ (is_list old = true /\ is_list new = false)
  \/ (is_dict old = false /\ is_list old = false
      /\ (is_dict new = true \/ is_list new = true)) ->
  revision_generate cls old new = Ret (old_new old new).
Proof.
  intros [[Ho Hn] | [[Ho Hn] | (Hd & Hl & Hn)]].
  - destruct old; try discriminate Ho. destruct new; try discriminate Hn;
      reflexivity.
  - destruct old; try discriminate Ho. destruct new; try discriminate Hn;
      reflexivity.
  - destruct old; try discriminate Hd; try discriminate Hl;
      destruct new; simpl in Hn; destruct Hn as [Hn | Hn];
      try discriminate Hn; reflexivity.
Qed.

Lemma kind_mismatch_terminal_witness :
  ((is_dict (VInt 1) = true /\ is_dict ex_a1 = false)
   \/ (is_list (VInt 1) = true /\ is_list ex_a1 = false)
   \/ (is_dict (VInt 1) = false /\ is_list (VInt 1) = false
       /\ (is_dict ex_a1 = true \/ is_list ex_a1 = true)))
  /\ revision_generate Storage (VInt 1) ex_a1 = Ret (old_new (VInt 1) ex_a1).
Proof.
  assert (H : (is_dict (VInt 1) = true /\ is_dict ex_a1 = false)
   \/ (is_list (VInt 1) = true /\ is_list ex_a1 = false)
   \/ (is_dict (VInt 1) = false /\ is_list (VInt 1) = false
       /\ (is_dict ex_a1 = true \/ is_list ex_a1 = true))).
  { right. right. repeat split; try reflexivity. left. reflexivity. }
  split; [exact H |].
  exact (kind_mismatch_terminal Storage (VInt 1) ex_a1 H).
Defined.

(** C7.  Two dicts without a common key, not both empty: every key of
    either lands in [dRet], so the result is the full replacement
    [{'old': old, 'new': new}], for every class.  In particular
    [revision_generate({}, {"a":1})] returns [{"old":{},"new":{"a":1}}]. *)
Theorem disjoint_keys_collapse :
  (forall (cls : pyclass) (o n : dict),
      NoDup (keys o) -> NoDup (keys n) ->
      (forall k, In k (keys o) -> ~ In k (keys n)) ->
      o <> [] \/ n <> [] ->
      revision_generate cls (VDict o) (VDict n)
      = Ret (old_new (VDict o) (VDict n)))
  /\ revision_generate Storage ex_empty ex_a1
     = Ret (VDict [("old", VDict []); ("new", VDict [("a", VInt 1)])]).
Proof.
  split; [| reflexivity].
  intros cls o n Ho Hn Hdisj _.
  destruct (dict_changes_disjoint cls o n Ho Hn Hdisj) as (dRet & Hrun & Hkeys).
  assert (Hc : changes cls (VDict o) (VDict n) = Some (Ret dRet))
    by (simpl; rewrite Hrun; reflexivity).
  rewrite (revision_generate_changes _ _ _ _ Hc).
  apply finish_cases. simpl. rewrite Hkeys, length_app. lia.
Qed.

Lemma disjoint_keys_collapse_witness :
  NoDup (keys [("a", VInt 1)]) /\ NoDup (keys [("b", VInt 2); ("c", VNone)])
  /\ (forall k, In k (keys [("a", VInt 1)]) ->
                ~ In k (keys [("b", VInt 2); ("c", VNone)]))
  /\ ([("a", VInt 1)] <> [] \/ [("b", VInt 2); ("c", VNone)] <> [])
  /\ revision_generate Storage (VDict [("a", VInt 1)])
       (VDict [("b", VInt 2); ("c", VNone)])
     = Ret (old_new (VDict [("a", VInt 1)])
              (VDict [("b", VInt 2); ("c", VNone)])).
Proof.
  assert (Ho : NoDup (keys [("a", VInt 1)]))
    by (apply distinct_NoDup; reflexivity).
  assert (Hn : NoDup (keys [("b", VInt 2); ("c", VNone)]))
    by (apply distinct_NoDup; reflexivity).
  assert (Hd : forall k, In k (keys [("a", VInt 1)]) ->
                         ~ In k (keys [("b", VInt 2); ("c", VNone)]))
    by (apply apart_spec; reflexivity).
  assert (He : [("a", VInt 1)] <> [] \/ [("b", VInt 2); ("c", VNone)] <> [])
    by (left; discriminate).
  split; [exact Ho |]. split; [exact Hn |]. split; [exact Hd |].
  split; [exact He |].
  exact (proj1 disjoint_keys_collapse Storage _ _ Ho Hn Hd He).
Defined.

(** C9.  Whatever [revision_generate] returns is [None] or a dict: either
    the pair [{'old': old, 'new': new}], or a non-empty [dRet] whose keys
    are keys of the two dicts compared, or the decimal forms of indexes of
    the two lists compared.  A list, a string, a number or a boolean is
    never returned. *)
Theorem result_None_or_dict (cls : pyclass) (old new v : value) :
  revision_generate cls old new = Ret v ->
  (v = VNone \/ is_dict v = true)
  /\ (v = VNone
      \/ v = old_new old new
      \/ exists dRet, v = VDict dRet /\ dRet <> []
                      /\ changes cls old new = Some (Ret dRet)
                      /\ forall k, In k (keys dRet) -> key_or_index old new k).
Proof.
  intros H.
  assert (Hshape : v = VNone
      \/ v = old_new old new
      \/ exists dRet, v = VDict dRet /\ dRet <> []
                      /\ changes cls old new = Some (Ret dRet)
                      /\ forall k, In k (keys dRet) -> key_or_index old new k).
  { assert (Hfin : forall dRet,
        changes cls old new = Some (Ret dRet) ->
        finish old new (len old) (len new) dRet = Ret v ->
        v = VNone \/ v = old_new old new
        \/ exists dRet, v = VDict dRet /\ dRet <> []
                        /\ changes cls old new = Some (Ret dRet)
                        /\ forall k, In k (keys dRet) -> key_or_index old new k).
    { intros dRet Hc Hf. unfold finish in Hf.
      destruct (and_or (len old) (len new) <=? length (keys dRet)).
      - injection Hf as <-. auto.
      - destruct dRet as [| e dRet]; simpl in Hf; injection Hf as <-; [auto |].
        right. right. exists (e :: dRet). repeat split; try assumption;
          try discriminate. exact (changes_keys _ _ _ _ Hc). }
    destruct old; destruct new; simpl in H;
      try (injection H as <-; auto; fail);
      try (destruct (negb _); injection H as <-; auto; fail).
    - apply bind_Ret_inv in H. destruct H as (dRet & Hc & Hf).
      apply (Hfin dRet); [simpl; rewrite Hc; reflexivity | exact Hf].
    - apply bind_Ret_inv in H. destruct H as (dRet & Hc & Hf).
      apply (Hfin dRet); [simpl; rewrite Hc; reflexivity | exact Hf]. }
  split; [| exact Hshape].
  destruct Hshape as [-> | [-> | (dRet & -> & _)]]; auto.
Qed.

Lemma result_None_or_dict_witness :
  revision_generate (Delegating 1) ex_123 ex_12
  = Ret (VDict [("2", old_new (VInt 3) VNone)])
  /\ (VDict [("2", old_new (VInt 3) VNone)] = VNone
      \/ is_dict (VDict [("2", old_new (VInt 3) VNone)]) = true).
Proof.
  split; [reflexivity |].
  apply (result_None_or_dict (Delegating 1) ex_123 ex_12). reflexivity.
Defined.

(** C10.  The call inside both loops is [cls.generate_changes].  On a class
    that does not bind that name, as [Storage] does not, two dicts with a
    key in common, and two lists that are both non-empty, end in the
    [AttributeError] of the lookup, and no result is returned. *)
Theorem unbound_generate_changes (cls : pyclass) :
  generate_changes cls = None ->
  (forall o n : dict,
      (exists k, In k (keys o) /\ In k (keys n)) ->
      revision_generate cls (VDict o) (VDict n) = Raise AttributeError)
  /\ (forall o n : list value,
         o <> [] -> n <> [] ->
         revision_generate cls (VList o) (VList n) = Raise AttributeError).
Proof.
  intros Hcls. split.
  - intros o n Hshared. simpl. unfold dict_changes.
    rewrite (dict_old_loop_unbound cls o n Hcls); auto.
  - intros o n Ho Hn. simpl. unfold list_changes.
    rewrite (list_old_loop_unbound cls o n [] Hcls Ho Hn). reflexivity.
Qed.

Lemma unbound_generate_changes_witness :
  generate_changes Storage = None
  /\ revision_generate Storage ex_a1b2 ex_a1b3 = Raise AttributeError
  /\ revision_generate Storage ex_123 ex_12 = Raise AttributeError.
Proof.
  split; [reflexivity |].
  destruct (unbound_generate_changes Storage eq_refl) as [Hd Hl].
  split.
  - apply Hd. exists "a". simpl. auto.
  - apply Hl; discriminate.
Defined.

(* ------------------------------------------------------------------ *)
(** ** The store model against the value model *)

(** Induction on values that reaches the items of lists and dicts. *)
Section ValueInduction.

Variable P : value -> Prop.
Hypothesis P_None : P VNone.
Hypothesis P_Bool : forall b, P (VBool b).
Hypothesis P_Int : forall z, P (VInt z).
Hypothesis P_Str : forall s, P (VStr s).
Hypothesis P_List : forall l, Forall P l -> P (VList l).
Hypothesis P_Dict : forall d, Forall (fun kx => P (snd kx)) d -> P (VDict d).

Lemma value_nested_ind : forall v : value, P v.
Proof.
  fix IH 1. intros [| b | z | s | l | d].
  - exact P_None.
  - exact (P_Bool b).
  - exact (P_Int z).
  - exact (P_Str s).
  - apply P_List. induction l as [| x l IHl]; constructor;
      [apply IH | exact IHl].
  - apply P_Dict. induction d as [| kx d IHd]; constructor;
      [apply IH | exact IHd].
Qed.

End ValueInduction.

Lemma Forall2_Forall_impl {A B : Type} (Q : A -> Prop) (R R' : A -> B -> Prop) :
  forall (l : list A) (l' : list B),
    Forall Q l -> Forall2 R l l' ->
    (forall a b, Q a -> R a b -> R' a b) ->
    Forall2 R' l l'.
Proof.
  intros l l' HQ HR Himp. induction HR as [| a b l l' Hab HR IH].
  - constructor.
  - inversion HQ; subst. constructor; auto.
Qed.

(** A representation moves to any store that has the same objects at the
    addresses it reads. *)
Lemma represents_in_transport (P Q : Store.addr -> Prop) (h h2 : Store.heap) :
  (forall a c, P a -> nth_error h a = Some c ->
               Q a /\ nth_error h2 a = Some c) ->
  forall x v, represents_in P h x v -> represents_in Q h2 x v.
Proof.
  intros Hmove x. induction x as [| | | | l IHl | d IHd] using value_nested_ind;
    intros v Hrep;
    inversion Hrep as [| | | | a items xs Hp Hn Hall | a es d' Hp Hn Hall];
    subst; try constructor.
  - destruct (Hmove _ _ Hp Hn) as [Hq Hn2].
    apply rep_List with (items := items); [exact Hq | exact Hn2 |].
    eapply Forall2_Forall_impl; [exact IHl | exact Hall |].
    intros a0 b0 IH Hab. apply IH. exact Hab.
  - destruct (Hmove _ _ Hp Hn) as [Hq Hn2].
    apply rep_Dict with (es := es); [exact Hq | exact Hn2 |].
    eapply Forall2_Forall_impl; [exact IHd | exact Hall |].
    intros a0 b0 IH [Hk Hab]. split; [exact Hk | apply IH; exact Hab].
Qed.

Lemma outcome_represents_transport (P Q : Store.addr -> Prop)
    (h h2 : Store.heap) (p : outcome value) (s : outcome Store.hval) :
  (forall a c, P a -> nth_error h a = Some c ->
               Q a /\ nth_error h2 a = Some c) ->
  outcome_represents P h p s -> outcome_represents Q h2 p s.
Proof.
  intros Hmove. destruct p, s; simpl; auto.
  apply represents_in_transport. exact Hmove.
Qed.

Lemma entries_transport (P Q : Store.addr -> Prop) (h h2 : Store.heap)
    (d : dict) (es : list (string * Store.hval)) :
  (forall a c, P a -> nth_error h a = Some c ->
               Q a /\ nth_error h2 a = Some c) ->
  Forall2 (entry_rel (represents_in P h)) d es ->
  Forall2 (entry_rel (represents_in Q h2)) d es.
Proof.
  intros Hmove H. eapply Forall2_impl; [| exact H].
  intros kx kv [Hk Hr]. split; [exact Hk |].
  eapply represents_in_transport; [exact Hmove | exact Hr].
Qed.

(** *** Dict and list operations on related contents *)

Section Related.

Variable R : value -> Store.hval -> Prop.

Lemma keys_related (d : dict) (es : list (string * Store.hval)) :
  Forall2 (entry_rel R) d es -> keys d = keys es.
Proof.
  induction 1 as [| kx kv d es [Hk _] _ IH]; simpl; [reflexivity |].
  rewrite Hk. f_equal. exact IH.
Qed.

Lemma dict_in_related (k : string) (d : dict) (es : list (string * Store.hval)) :
  Forall2 (entry_rel R) d es -> dict_in k d = dict_in k es.
Proof.
  induction 1 as [| [k1 x] [k2 v] d es [Hk _] _ IH]; simpl in *; [reflexivity |].
  subst k2. rewrite IH. reflexivity.
Qed.

Lemma dict_get_related (k : string) (d : dict) (es : list (string * Store.hval)) :
  Forall2 (entry_rel R) d es ->
  match dict_get d k, dict_get es k with
  | Ret x, Ret v => R x v
  | Raise e, Raise e' => e = e'
  | _, _ => False
  end.
Proof.
  induction 1 as [| [k1 x] [k2 v] d es [Hk Hr] _ IH]; simpl in *; [reflexivity |].
  subst k2. destruct (String.eqb k k1); [exact Hr | exact IH].
Qed.

Lemma dict_set_related (k : string) (x : value) (v : Store.hval)
    (d : dict) (es : list (string * Store.hval)) :
  Forall2 (entry_rel R) d es -> R x v ->
  Forall2 (entry_rel R) (dict_set d k x) (dict_set es k v).
Proof.
  intros H Hxv.
  induction H as [| [k1 x1] [k2 v1] d es [Hk Hr] Hrest IH]; simpl in *.
  - constructor; [split; [reflexivity | exact Hxv] | constructor].
  - subst k2. destruct (String.eqb k k1).
    + constructor; [split; [reflexivity | exact Hxv] | exact Hrest].
    + constructor; [split; [reflexivity | exact Hr] | exact IH].
Qed.

Lemma list_get_related (i : nat) (xs : list value) (l : list Store.hval) :
  Forall2 R xs l ->
  match list_get xs i, list_get l i with
  | Ret x, Ret v => R x v
  | Raise e, Raise e' => e = e'
  | _, _ => False
  end.
Proof.
  intros H. revert i. unfold list_get.
  induction H as [| x v xs l Hxv _ IH]; intros [| i]; simpl; auto.
  apply IH.
Qed.

End Related.

Lemma list_remove_keys (k : string) (l : list string) :
  list_remove (Store.is_str k) (map Store.HStr l)
  = match list_remove (String.eqb k) l with
    | Ret l' => Ret (map Store.HStr l')
    | Raise e => Raise e
    end.
Proof.
  induction l as [| y l IH]; simpl; [reflexivity |].
  destruct (String.eqb k y); [reflexivity |].
  rewrite IH. destruct (list_remove (String.eqb k) l); reflexivity.
Qed.

(** *** Steps of store computations *)

Lemma bind_run {A B : Type} (m : Store.M A) (k : A -> Store.M B)
    (h h' : Store.heap) (a : A) :
  m h = (Ret a, h') -> Store.bind m k h = k a h'.
Proof.
  intros H. unfold Store.bind. rewrite H. reflexivity.
Qed.

Lemma bind_raise {A B : Type} (m : Store.M A) (k : A -> Store.M B)
    (h h' : Store.heap) (e : exn) :
  m h = (Raise e, h') -> Store.bind m k h = (Raise e, h').
Proof.
  intros H. unfold Store.bind. rewrite H. reflexivity.
Qed.

Lemma run_entries (h : Store.heap) (a : Store.addr) es :
  nth_error h a = Some (Store.CDict es) -> Store.entries a h = (Ret es, h).
Proof.
  intros H. unfold Store.entries, Store.bind, Store.load. rewrite H. reflexivity.
Qed.

Lemma run_items (h : Store.heap) (a : Store.addr) l :
  nth_error h a = Some (Store.CList l) -> Store.items a h = (Ret l, h).
Proof.
  intros H. unfold Store.items, Store.bind, Store.load. rewrite H. reflexivity.
Qed.

Lemma run_setitem (h : Store.heap) (d : Store.addr) es k v :
  nth_error h d = Some (Store.CDict es) ->
  Store.setitem d k v h
  = (Ret tt, Store.heap_set h d (Store.CDict (dict_set es k v))).
Proof.
  intros H. unfold Store.setitem. rewrite (bind_run _ _ _ _ _ (run_entries _ _ _ H)).
  reflexivity.
Qed.

Lemma run_old_new (h : Store.heap) (a b : Store.hval) :
  Store.old_new a b h
  = (Ret (Store.HRef (length h)),
     h ++ [Store.CDict [("old", a); ("new", b)]]).
Proof.
  reflexivity.
Qed.

Lemma run_truthy (P : Store.addr -> Prop) (h : Store.heap) x v :
  represents_in P h x v -> Store.truthy v h = (Ret (truthy x), h).
Proof.
  intros H. inversion H as [| | | | a items xs Hp Hn Hall | a es d Hp Hn Hall];
    subst; simpl; try reflexivity.
  - unfold Store.bind, Store.load. rewrite Hn.
    inversion Hall; reflexivity.
  - unfold Store.bind, Store.load. rewrite Hn.
    inversion Hall; reflexivity.
Qed.

Lemma run_classify_dict (h : Store.heap) (a : Store.addr) es :
  nth_error h a = Some (Store.CDict es) ->
  Store.classify (Store.HRef a) h = (Ret (Store.KDict a), h).
Proof.
  intros H. unfold Store.classify, Store.bind, Store.load. rewrite H. reflexivity.
Qed.

Lemma run_classify_list (h : Store.heap) (a : Store.addr) l :
  nth_error h a = Some (Store.CList l) ->
  Store.classify (Store.HRef a) h = (Ret (Store.KList a), h).
Proof.
  intros H. unfold Store.classify, Store.bind, Store.load. rewrite H. reflexivity.
Qed.

Lemma scalar_eq_related (P : Store.addr -> Prop) (h : Store.heap) x y v w :
  represents_in P h x v -> represents_in P h y w ->
  is_dict x = false -> is_list x = false ->
  is_dict y = false -> is_list y = false ->
  Store.scalar_eq v w = scalar_eq x y.
Proof.
  intros Hx Hy. inversion Hx; subst; inversion Hy; subst; simpl;
    intros; try reflexivity; discriminate.
Qed.

(** *** The shape of the store during a call

    [h0] is the store when the call starts, [loc] the local objects the
    call has allocated first ([dRet], then [lNewKeys] in the dict branch),
    and [rest] what has been allocated since. *)

Lemma heap_set_app (h0 f : Store.heap) (i : nat) (c : Store.cell) :
  Store.heap_set (h0 ++ f) (length h0 + i) c = h0 ++ Store.heap_set f i c.
Proof.
  induction h0 as [| x h0 IH]; simpl; [reflexivity |].
  rewrite IH. reflexivity.
Qed.

Lemma nth_error_start (h0 f : Store.heap) (a : nat) (c : Store.cell) :
  nth_error h0 a = Some c -> nth_error (h0 ++ f) a = Some c.
Proof.
  intros H. rewrite nth_error_app1; [exact H |].
  apply nth_error_Some. congruence.
Qed.

Lemma nth_error_local (h0 f : Store.heap) (i : nat) :
  nth_error (h0 ++ f) (length h0 + i) = nth_error f i.
Proof.
  rewrite nth_error_app2 by lia. f_equal. lia.
Qed.

Lemma beyond_stable (P : Store.addr -> Prop) (h0 loc loc' rest more : Store.heap) :
  length loc = length loc' ->
  forall a c,
    beyond P h0 (length loc) a ->
    nth_error (h0 ++ loc ++ rest) a = Some c ->
    beyond P h0 (length loc) a
    /\ nth_error (h0 ++ loc' ++ rest ++ more) a = Some c.
Proof.
  intros Hlen a c Hb Hn. split; [exact Hb |].
  destruct Hb as [[_ Hlt] | Hge].
  - rewrite nth_error_app1 in Hn by exact Hlt.
    rewrite nth_error_app1 by exact Hlt. exact Hn.
  - rewrite nth_error_app2 in Hn by lia.
    rewrite nth_error_app2 in Hn by lia.
    rewrite nth_error_app2 by lia.
    rewrite nth_error_app2 by lia.
    rewrite <- Hlen. apply nth_error_start. exact Hn.
Qed.

Lemma args_stable (P : Store.addr -> Prop) (h0 f : Store.heap) (m : nat) :
  forall a c,
    P a -> nth_error h0 a = Some c ->
    beyond P h0 m a /\ nth_error (h0 ++ f) a = Some c.
Proof.
  intros a c Hp Hn. split.
  - left. split; [exact Hp |]. apply nth_error_Some. congruence.
  - apply nth_error_start. exact Hn.
Qed.

Lemma args_kept (P : Store.addr -> Prop) (h0 f : Store.heap) :
  forall a c,
    P a -> nth_error h0 a = Some c ->
    P a /\ nth_error (h0 ++ f) a = Some c.
Proof.
  intros a c Hp Hn. split; [exact Hp | apply nth_error_start; exact Hn].
Qed.

(** *** The local dict [dRet] in the store *)

Section Locals.

Variable P : Store.addr -> Prop.
Variable h0 : Store.heap.

Lemma during_dRet esRet tl rest :
  nth_error (during h0 esRet tl rest) (length h0) = Some (Store.CDict esRet).
Proof.
  unfold during. rewrite <- (Nat.add_0_r (length h0)) at 1.
  rewrite nth_error_local. reflexivity.
Qed.

Lemma during_set_dRet esRet tl rest esRet' :
  Store.heap_set (during h0 esRet tl rest) (length h0) (Store.CDict esRet')
  = during h0 esRet' tl rest.
Proof.
  unfold during. rewrite <- (Nat.add_0_r (length h0)) at 1.
  rewrite heap_set_app. reflexivity.
Qed.

Lemma during_app esRet tl rest more :
  during h0 esRet tl rest ++ more = during h0 esRet tl (rest ++ more).
Proof.
  unfold during. rewrite <- !app_assoc. reflexivity.
Qed.

Lemma during_length esRet tl rest :
  length (during h0 esRet tl rest) = length h0 + S (length tl) + length rest.
Proof.
  unfold during. rewrite !length_app. simpl. lia.
Qed.

Lemma during_arg esRet tl rest a cl :
  nth_error h0 a = Some cl -> nth_error (during h0 esRet tl rest) a = Some cl.
Proof.
  apply nth_error_start.
Qed.

Lemma during_last esRet tl rest cl :
  nth_error (during h0 esRet tl (rest ++ [cl]))
    (length (during h0 esRet tl rest)) = Some cl.
Proof.
  rewrite during_length. unfold during.
  rewrite <- Nat.add_assoc, nth_error_local.
  change (S (length tl)) with (length (Store.CDict esRet :: tl)).
  rewrite nth_error_local.
  rewrite <- (Nat.add_0_r (length rest)), nth_error_local. reflexivity.
Qed.

Lemma beyond_moves esRet tl rest esRet' tl' more :
  length tl = length tl' ->
  forall a cl,
    beyond P h0 (S (length tl)) a ->
    nth_error (during h0 esRet tl rest) a = Some cl ->
    beyond P h0 (S (length tl)) a
    /\ nth_error (during h0 esRet' tl' (rest ++ more)) a = Some cl.
Proof.
  intros Hlen. unfold during.
  apply (beyond_stable P h0 (Store.CDict esRet :: tl) (Store.CDict esRet' :: tl')).
  simpl. rewrite Hlen. reflexivity.
Qed.

Lemma stored_moves esRet tl rest esRet' tl' more d es :
  length tl = length tl' ->
  stored P h0 (S (length tl)) (during h0 esRet tl rest) d es ->
  stored P h0 (S (length tl)) (during h0 esRet' tl' (rest ++ more)) d es.
Proof.
  intros Hlen. unfold stored. apply entries_transport.
  apply beyond_moves. exact Hlen.
Qed.

Lemma arg_beyond esRet tl rest x v :
  represents_in P h0 x v ->
  represents_in (beyond P h0 (S (length tl))) (during h0 esRet tl rest) x v.
Proof.
  apply represents_in_transport. apply args_stable.
Qed.

Lemma arg_during esRet tl rest x v :
  represents_in P h0 x v ->
  represents_in (fun a => P a /\ a < length h0) (during h0 esRet tl rest) x v.
Proof.
  apply represents_in_transport. intros a cl Hp Hnth. split.
  - split; [exact Hp |]. apply nth_error_Some. congruence.
  - apply nth_error_start. exact Hnth.
Qed.

(** The pair [{ 'old': a, 'new': b }] just allocated, as a stored change. *)
Lemma pair_beyond esRet tl rest x y v w :
  represents_in (beyond P h0 (S (length tl))) (during h0 esRet tl rest) x v ->
  represents_in (beyond P h0 (S (length tl))) (during h0 esRet tl rest) y w ->
  forall esRet' tl',
    length tl = length tl' ->
    represents_in (beyond P h0 (S (length tl)))
      (during h0 esRet' tl' (rest ++ [Store.CDict [("old", v); ("new", w)]]))
      (old_new x y) (Store.HRef (length (during h0 esRet tl rest))).
Proof.
  intros Hx Hy esRet' tl' Hlen.
  assert (Hmove : forall z u,
    represents_in (beyond P h0 (S (length tl))) (during h0 esRet tl rest) z u ->
    represents_in (beyond P h0 (S (length tl)))
      (during h0 esRet' tl'
         (rest ++ [Store.CDict [("old", v); ("new", w)]])) z u).
  { intros z u. apply represents_in_transport. apply beyond_moves. exact Hlen. }
  apply rep_Dict with (es := [("old", v); ("new", w)]).
  - right. rewrite during_length. lia.
  - rewrite (during_length esRet tl rest), Hlen, <- (during_length esRet' tl' rest).
    apply during_last.
  - constructor; [split; [reflexivity | apply Hmove; exact Hx] |].
    constructor; [split; [reflexivity | apply Hmove; exact Hy] |].
    constructor.
Qed.

(** What a method related by [method_refines] has returned, as a stored
    change. *)
Lemma result_beyond esRet tl rest fresh x v :
  represents_in
    (fun a => (P a /\ a < length h0) \/ length (during h0 esRet tl rest) <= a)
    (during h0 esRet tl (rest ++ fresh)) x v ->
  forall esRet' tl',
    length tl = length tl' ->
    represents_in (beyond P h0 (S (length tl)))
      (during h0 esRet' tl' (rest ++ fresh)) x v.
Proof.
  intros H esRet' tl' Hlen. revert H. apply represents_in_transport.
  intros a cl Ha Hnth.
  assert (Hb : beyond P h0 (S (length tl)) a).
  { destruct Ha as [Ha | Ha]; [left; exact Ha |].
    right. rewrite during_length in Ha. lia. }
  pose proof (beyond_moves esRet tl (rest ++ fresh) esRet' tl' [] Hlen a cl Hb Hnth)
    as [_ Hnth'].
  rewrite app_nil_r in Hnth'. split; [exact Hb | exact Hnth'].
Qed.

(** The end of a container branch. *)
Lemma store_finish (old new : Store.hval) (x y : value) (iOldLen iNewLen : nat)
    esRet tl rest dRet :
  represents_in P h0 x old -> represents_in P h0 y new ->
  stored P h0 (S (length tl)) (during h0 esRet tl rest) dRet esRet ->
  exists fresh,
    snd (Store.finish old new iOldLen iNewLen (length h0)
           (during h0 esRet tl rest))
    = h0 ++ fresh
    /\ outcome_represents (fun a => P a \/ length h0 <= a) (h0 ++ fresh)
         (finish x y iOldLen iNewLen dRet)
         (fst (Store.finish old new iOldLen iNewLen (length h0)
                 (during h0 esRet tl rest))).
Proof.
  intros Hx Hy Hst. unfold Store.finish, finish.
  rewrite (bind_run _ _ _ _ _ (run_entries _ _ _ (during_dRet _ _ _))).
  rewrite <- (keys_related _ _ _ Hst).
  destruct (and_or iOldLen iNewLen <=? length (keys dRet)).
  - rewrite run_old_new. cbn [fst snd].
    exists ((Store.CDict esRet :: tl) ++ rest
            ++ [Store.CDict [("old", old); ("new", new)]]).
    split; [unfold during; rewrite <- !app_assoc; reflexivity |].
    cbn [outcome_represents].
    assert (Hmove : forall z u,
      represents_in P h0 z u ->
      represents_in (fun a => P a \/ length h0 <= a)
        (h0 ++ (Store.CDict esRet :: tl) ++ rest
            ++ [Store.CDict [("old", old); ("new", new)]]) z u).
    { intros z u. apply represents_in_transport. intros a cl Hp Hnth.
      split; [left; exact Hp | apply nth_error_start; exact Hnth]. }
    apply rep_Dict with (es := [("old", old); ("new", new)]).
    + right. rewrite during_length. lia.
    + pose proof (during_last esRet tl rest
                    (Store.CDict [("old", old); ("new", new)])) as Hl.
      unfold during at 1 in Hl. exact Hl.
    + constructor; [split; [reflexivity | apply Hmove; exact Hx] |].
      constructor; [split; [reflexivity | apply Hmove; exact Hy] |].
      constructor.
  - assert (Hd : represents_in (fun a => P a \/ length h0 <= a)
                   (during h0 esRet tl rest) (VDict dRet)
                   (Store.HRef (length h0))).
    { apply rep_Dict with (es := esRet).
      - right. lia.
      - apply during_dRet.
      - eapply Forall2_impl; [| exact Hst].
        intros kx kv [Hk Hr]. split; [exact Hk |].
        revert Hr. apply represents_in_transport.
        intros a cl Hb Hnth. split; [| exact Hnth].
        destruct Hb as [[Hp _] | Hge]; [left; exact Hp | right; lia]. }
    rewrite (bind_run _ _ _ _ _ (run_truthy _ _ _ _ Hd)).
    exists ((Store.CDict esRet :: tl) ++ rest).
    destruct (truthy (VDict dRet)); cbn [Store.ret fst snd outcome_represents].
    + split; [reflexivity | exact Hd].
    + split; [reflexivity | constructor].
Qed.

End Locals.

(** *** The dict branch over the store *)

Section DictBranch.

Variable cs : Store.pyclass.
Variable c : pyclass.
Hypothesis Hcls : class_refines cs c.

Variable P : Store.addr -> Prop.
Variable h0 : Store.heap.
Variables ao an : Store.addr.
Variables eo en : list (string * Store.hval).
Variables o n : dict.
Hypothesis Hao : nth_error h0 ao = Some (Store.CDict eo).
Hypothesis Han : nth_error h0 an = Some (Store.CDict en).
Hypothesis Ho : Forall2 (entry_rel (represents_in P h0)) o eo.
Hypothesis Hn : Forall2 (entry_rel (represents_in P h0)) n en.

Lemma during_lNewKeys esRet lNew rest :
  nth_error (during h0 esRet (keys_cell lNew) rest) (length h0 + 1)
  = Some (Store.CList (map Store.HStr lNew)).
Proof.
  unfold during. rewrite nth_error_local. reflexivity.
Qed.

Lemma during_set_lNewKeys esRet lNew rest lNew' :
  Store.heap_set (during h0 esRet (keys_cell lNew) rest) (length h0 + 1)
    (Store.CList (map Store.HStr lNew'))
  = during h0 esRet (keys_cell lNew') rest.
Proof.
  unfold during. rewrite heap_set_app. reflexivity.
Qed.

Lemma store_dict_old_loop :
  forall (ks : list string) (dRet : dict) (lNew : list string) esRet rest,
    stored P h0 2 (during h0 esRet (keys_cell lNew) rest) dRet esRet ->
    match dict_old_loop c o n ks dRet lNew with
    | Ret (dRet', lNew') =>
        exists esRet' rest',
          Store.dict_old_loop cs ao an (length h0) (length h0 + 1) ks
            (during h0 esRet (keys_cell lNew) rest)
          = (Ret tt, during h0 esRet' (keys_cell lNew') rest')
          /\ stored P h0 2 (during h0 esRet' (keys_cell lNew') rest') dRet' esRet'
    | Raise e =>
        exists f,
          Store.dict_old_loop cs ao an (length h0) (length h0 + 1) ks
            (during h0 esRet (keys_cell lNew) rest)
          = (Raise e, h0 ++ f)
    end.
Proof.
  induction ks as [| k ks IH]; intros dRet lNew esRet rest Hst.
  - simpl. exists esRet, rest. split; [reflexivity | exact Hst].
  - cbn [dict_old_loop Store.dict_old_loop].
    rewrite (bind_run _ _ _ _ _ (run_entries _ _ _ (during_arg _ _ _ _ _ _ Han))).
    rewrite <- (dict_in_related _ k n en Hn).
    pose proof (dict_get_related _ k o eo Ho) as Hgo.
    pose proof (dict_get_related _ k n en Hn) as Hgn.
    destruct (dict_in k n) eqn:Hin; cbn [negb].
    + (* the key is in both *)
      unfold class_refines in Hcls.
      unfold getattr_generate_changes, Store.getattr_generate_changes.
      destruct (Store.generate_changes cs) as [gs |];
        destruct (generate_changes c) as [g |]; try contradiction.
      2:{ cbn [bind]. eexists. reflexivity. }
      cbn [bind].
      rewrite (bind_run _ _ _ _ _ (eq_refl : Store.ret gs _ = (Ret gs, _))).
      rewrite (bind_run _ _ _ _ _ (run_entries _ _ _ (during_arg _ _ _ _ _ _ Hao))).
      destruct (dict_get o k) as [x | e]; destruct (dict_get eo k) as [v | e'];
        try contradiction.
      2:{ subst e'. cbn [bind]. eexists. reflexivity. }
      cbn [bind].
      rewrite (bind_run _ _ _ _ _
                 (eq_refl : Store.lift (Ret v) _ = (Ret v, _))).
      rewrite (bind_run _ _ _ _ _ (run_entries _ _ _ (during_arg _ _ _ _ _ _ Han))).
      destruct (dict_get n k) as [y | e]; destruct (dict_get en k) as [w | e'];
        try contradiction.
      2:{ subst e'. cbn [bind]. eexists. reflexivity. }
      cbn [bind].
      rewrite (bind_run _ _ _ _ _
                 (eq_refl : Store.lift (Ret w) _ = (Ret w, _))).
      destruct (Hcls _ _ v w x y
                  (arg_during P h0 esRet (keys_cell lNew) rest _ _ Hgo)
                  (arg_during P h0 esRet (keys_cell lNew) rest _ _ Hgn))
        as (fresh & Hsnd & Hout).
      destruct (gs v w (during h0 esRet (keys_cell lNew) rest)) as [r h1] eqn:Hrun.
      cbn [fst snd] in Hsnd, Hout. subst h1.
      rewrite during_app in Hrun, Hout.
      destruct (g x y) as [xt | e]; destruct r as [vt | e'];
        cbn [outcome_represents] in Hout; try contradiction.
      2:{ subst e'. cbn [bind]. rewrite (bind_raise _ _ _ _ _ Hrun).
          eexists. reflexivity. }
      cbn [bind]. rewrite (bind_run _ _ _ _ _ Hrun).
      rewrite (bind_run _ _ _ _ _ (run_items _ _ _ (during_lNewKeys _ _ _))).
      rewrite list_remove_keys.
      destruct (list_remove (String.eqb k) lNew) as [lNew' | e].
      2:{ cbn [bind]. eexists. reflexivity. }
      cbn [bind].
      rewrite (bind_run _ _ _ _ _
                 (eq_refl : Store.lift (Ret (map Store.HStr lNew')) _
                            = (Ret (map Store.HStr lNew'), _))).
      rewrite (bind_run _ _ _ _ _
                 (eq_refl : Store.store _ _ _ = (Ret tt, _))).
      rewrite during_set_lNewKeys.
      pose proof (result_beyond P h0 _ _ _ _ _ _ Hout) as Hres.
      rewrite (bind_run _ _ _ _ _
                 (run_truthy _ _ _ _ (Hres esRet (keys_cell lNew') eq_refl))).
      destruct (truthy xt).
      * rewrite (bind_run _ _ _ _ _
                   (run_setitem _ _ _ k vt (during_dRet h0 _ _ _))).
        rewrite during_set_dRet.
        apply IH. apply dict_set_related; [| apply Hres; reflexivity].
        apply (stored_moves P h0 esRet (keys_cell lNew) rest); [reflexivity |].
        exact Hst.
      * rewrite (bind_run _ _ _ _ _ (eq_refl : Store.ret tt _ = (Ret tt, _))).
        apply IH.
        apply (stored_moves P h0 esRet (keys_cell lNew) rest); [reflexivity |].
        exact Hst.
    + (* the key is not in [new] *)
      rewrite (bind_run _ _ _ _ _ (run_entries _ _ _ (during_arg _ _ _ _ _ _ Hao))).
      destruct (dict_get o k) as [x | e]; destruct (dict_get eo k) as [v | e'];
        try contradiction.
      2:{ subst e'. cbn [bind]. eexists. reflexivity. }
      cbn [bind].
      rewrite (bind_run _ _ _ _ _
                 (eq_refl : Store.lift (Ret v) _ = (Ret v, _))).
      rewrite (bind_run _ _ _ _ _ (run_old_new _ _ _)).
      rewrite during_app.
      rewrite (bind_run _ _ _ _ _
                 (run_setitem _ _ _ k _ (during_dRet h0 _ _ _))).
      rewrite during_set_dRet.
      apply IH. apply dict_set_related.
      * apply (stored_moves P h0 esRet (keys_cell lNew) rest); [reflexivity |].
        exact Hst.
      * apply (pair_beyond P h0 esRet (keys_cell lNew) rest);
          [apply (arg_beyond P h0 esRet (keys_cell lNew)); exact Hgo
          | constructor | reflexivity].
Qed.

Lemma store_dict_new_loop (lNew : list string) :
  forall (ks : list string) (dRet : dict) esRet rest,
    stored P h0 2 (during h0 esRet (keys_cell lNew) rest) dRet esRet ->
    match dict_new_loop n ks dRet with
    | Ret dRet' =>
        exists esRet' rest',
          Store.dict_new_loop an (length h0) (map Store.HStr ks)
            (during h0 esRet (keys_cell lNew) rest)
          = (Ret tt, during h0 esRet' (keys_cell lNew) rest')
          /\ stored P h0 2 (during h0 esRet' (keys_cell lNew) rest') dRet' esRet'
    | Raise e =>
        exists f,
          Store.dict_new_loop an (length h0) (map Store.HStr ks)
            (during h0 esRet (keys_cell lNew) rest)
          = (Raise e, h0 ++ f)
    end.
Proof.
  induction ks as [| k ks IH]; intros dRet esRet rest Hst.
  - simpl. exists esRet, rest. split; [reflexivity | exact Hst].
  - cbn [dict_new_loop Store.dict_new_loop map].
    rewrite (bind_run _ _ _ _ _ (run_entries _ _ _ (during_arg _ _ _ _ _ _ Han))).
    pose proof (dict_get_related _ k n en Hn) as Hgn.
    destruct (dict_get n k) as [y | e]; destruct (dict_get en k) as [w | e'];
      try contradiction.
    2:{ subst e'. cbn [bind]. eexists. reflexivity. }
    cbn [bind].
    rewrite (bind_run _ _ _ _ _
               (eq_refl : Store.lift (Ret w) _ = (Ret w, _))).
    rewrite (bind_run _ _ _ _ _ (run_old_new _ _ _)).
    rewrite during_app.
    rewrite (bind_run _ _ _ _ _
               (run_setitem _ _ _ k _ (during_dRet h0 _ _ _))).
    rewrite during_set_dRet.
    apply IH. apply dict_set_related.
    + apply (stored_moves P h0 esRet (keys_cell lNew) rest); [reflexivity |].
      exact Hst.
    + apply (pair_beyond P h0 esRet (keys_cell lNew) rest);
        [constructor
        | apply (arg_beyond P h0 esRet (keys_cell lNew)); exact Hgn
        | reflexivity].
Qed.

Lemma store_dict_branch (old new : Store.hval) :
  old = Store.HRef ao -> new = Store.HRef an ->
  P ao -> P an ->
  exists fresh,
    snd (Store.revision_generate cs old new h0) = h0 ++ fresh
    /\ outcome_represents (fun a => P a \/ length h0 <= a) (h0 ++ fresh)
         (revision_generate c (VDict o) (VDict n))
         (fst (Store.revision_generate cs old new h0)).
Proof.
  intros -> -> Hpo Hpn.
  assert (Hx : represents_in P h0 (VDict o) (Store.HRef ao))
    by (apply rep_Dict with (es := eo); assumption).
  assert (Hy : represents_in P h0 (VDict n) (Store.HRef an))
    by (apply rep_Dict with (es := en); assumption).
  unfold Store.revision_generate.
  rewrite (bind_run _ _ _ _ _ (run_classify_dict _ _ _ Hao)).
  rewrite (bind_run _ _ _ _ _ (run_classify_dict _ _ _ Han)).
  rewrite (bind_run _ _ _ _ _
             (eq_refl : Store.alloc (Store.CDict []) h0 = (Ret (length h0), _))).
  rewrite (bind_run _ _ _ _ _ (run_entries _ _ _ (nth_error_start _ _ _ _ Hao))).
  rewrite (bind_run _ _ _ _ _ (run_entries _ _ _ (nth_error_start _ _ _ _ Han))).
  rewrite (bind_run _ _ _ _ _
             (eq_refl : Store.alloc _ (h0 ++ [Store.CDict []])
                        = (Ret (length (h0 ++ [Store.CDict []])), _))).
  replace (length (h0 ++ [Store.CDict []])) with (length h0 + 1)
    by (rewrite length_app; reflexivity).
  replace ((h0 ++ [Store.CDict []]) ++ [Store.CList (map Store.HStr (keys en))])
    with (during h0 [] (keys_cell (keys n)) [])
    by (unfold during, keys_cell; rewrite <- (keys_related _ _ _ Hn),
          <- app_assoc, app_nil_r; reflexivity).
  rewrite <- (keys_related _ _ _ Ho), <- (keys_related _ _ _ Hn).
  cbn [revision_generate]. unfold dict_changes.
  pose proof (store_dict_old_loop (keys o) [] (keys n) [] [] (Forall2_nil _))
    as Hloop.
  destruct (dict_old_loop c o n (keys o) [] (keys n)) as [[dRet1 lNew1] | e].
  2:{ destruct Hloop as (f & Hrun). cbn [bind].
      rewrite (bind_raise _ _ _ _ _ Hrun). exists f. split; reflexivity. }
  destruct Hloop as (es1 & rest1 & Hrun & Hst1).
  rewrite (bind_run _ _ _ _ _ Hrun). cbn [bind].
  rewrite (bind_run _ _ _ _ _ (run_items _ _ _ (during_lNewKeys _ _ _))).
  assert (Hsecond :
    match (match lNew1 with
           | [] => Ret dRet1
           | _ :: _ => dict_new_loop n lNew1 dRet1
           end) with
    | Ret dRet' =>
        exists esRet' rest',
          (match map Store.HStr lNew1 with
           | [] => Store.ret tt
           | _ :: _ =>
               Store.dict_new_loop an (length h0) (map Store.HStr lNew1)
           end) (during h0 es1 (keys_cell lNew1) rest1)
          = (Ret tt, during h0 esRet' (keys_cell lNew1) rest')
          /\ stored P h0 2 (during h0 esRet' (keys_cell lNew1) rest') dRet' esRet'
    | Raise e =>
        exists f,
          (match map Store.HStr lNew1 with
           | [] => Store.ret tt
           | _ :: _ =>
               Store.dict_new_loop an (length h0) (map Store.HStr lNew1)
           end) (during h0 es1 (keys_cell lNew1) rest1)
          = (Raise e, h0 ++ f)
    end).
  { destruct lNew1 as [| k l].
    - exists es1, rest1. split; [reflexivity | exact Hst1].
    - exact (store_dict_new_loop (k :: l) (k :: l) dRet1 es1 rest1 Hst1). }
  destruct (match lNew1 with
            | [] => Ret dRet1
            | _ :: _ => dict_new_loop n lNew1 dRet1
            end) as [dRet2 | e].
  2:{ destruct Hsecond as (f & Hrun2). cbn [bind].
      rewrite (bind_raise _ _ _ _ _ Hrun2). exists f. split; reflexivity. }
  destruct Hsecond as (es2 & rest2 & Hrun2 & Hst2).
  rewrite (bind_run _ _ _ _ _ Hrun2). cbn [bind].
  exact (store_finish P h0 _ _ _ _ _ _ es2 (keys_cell lNew1) rest2 dRet2
           Hx Hy Hst2).
Qed.

End DictBranch.

(** *** The list branch over the store *)

Section ListBranch.

Variable cs : Store.pyclass.
Variable c : pyclass.
Hypothesis Hcls : class_refines cs c.

Variable P : Store.addr -> Prop.
Variable h0 : Store.heap.
Variables ao an : Store.addr.
Variables lo ln : list Store.hval.
Variables o n : list value.
Hypothesis Hao : nth_error h0 ao = Some (Store.CList lo).
Hypothesis Han : nth_error h0 an = Some (Store.CList ln).
Hypothesis Ho : Forall2 (represents_in P h0) o lo.
Hypothesis Hn : Forall2 (represents_in P h0) n ln.

Lemma store_list_old_loop (iNewLen : nat) :
  forall (idx : list nat) (dRet : dict) esRet rest,
    stored P h0 1 (during h0 esRet [] rest) dRet esRet ->
    match list_old_loop c o n iNewLen idx dRet with
    | Ret dRet' =>
        exists esRet' rest',
          Store.list_old_loop cs ao an (length h0) iNewLen idx
            (during h0 esRet [] rest)
          = (Ret tt, during h0 esRet' [] rest')
          /\ stored P h0 1 (during h0 esRet' [] rest') dRet' esRet'
    | Raise e =>
        exists f,
          Store.list_old_loop cs ao an (length h0) iNewLen idx
            (during h0 esRet [] rest)
          = (Raise e, h0 ++ f)
    end.
Proof.
  induction idx as [| i idx IH]; intros dRet esRet rest Hst.
  - simpl. exists esRet, rest. split; [reflexivity | exact Hst].
  - cbn [list_old_loop Store.list_old_loop].
    pose proof (list_get_related _ i o lo Ho) as Hgo.
    pose proof (list_get_related _ i n ln Hn) as Hgn.
    destruct (iNewLen <=? i).
    + (* the index is not in [new] *)
      rewrite (bind_run _ _ _ _ _ (run_items _ _ _ (during_arg _ _ _ _ _ _ Hao))).
      destruct (list_get o i) as [x | e]; destruct (list_get lo i) as [v | e'];
        try contradiction.
      2:{ subst e'. cbn [bind]. eexists. reflexivity. }
      cbn [bind].
      rewrite (bind_run _ _ _ _ _
                 (eq_refl : Store.lift (Ret v) _ = (Ret v, _))).
      rewrite (bind_run _ _ _ _ _ (run_old_new _ _ _)).
      rewrite during_app.
      rewrite (bind_run _ _ _ _ _
                 (run_setitem _ _ _ (str i) _ (during_dRet h0 _ _ _))).
      rewrite during_set_dRet.
      apply IH. apply dict_set_related.
      * apply (stored_moves P h0 esRet [] rest); [reflexivity | exact Hst].
      * apply (pair_beyond P h0 esRet [] rest);
          [apply (arg_beyond P h0 esRet []); exact Hgo
          | constructor | reflexivity].
    + (* the index is in both *)
      unfold class_refines in Hcls.
      unfold getattr_generate_changes, Store.getattr_generate_changes.
      destruct (Store.generate_changes cs) as [gs |];
        destruct (generate_changes c) as [g |]; try contradiction.
      2:{ cbn [bind]. eexists. reflexivity. }
      cbn [bind].
      rewrite (bind_run _ _ _ _ _ (eq_refl : Store.ret gs _ = (Ret gs, _))).
      rewrite (bind_run _ _ _ _ _ (run_items _ _ _ (during_arg _ _ _ _ _ _ Hao))).
      destruct (list_get o i) as [x | e]; destruct (list_get lo i) as [v | e'];
        try contradiction.
      2:{ subst e'. cbn [bind]. eexists. reflexivity. }
      cbn [bind].
      rewrite (bind_run _ _ _ _ _
                 (eq_refl : Store.lift (Ret v) _ = (Ret v, _))).
      rewrite (bind_run _ _ _ _ _ (run_items _ _ _ (during_arg _ _ _ _ _ _ Han))).
      destruct (list_get n i) as [y | e]; destruct (list_get ln i) as [w | e'];
        try contradiction.
      2:{ subst e'. cbn [bind]. eexists. reflexivity. }
      cbn [bind].
      rewrite (bind_run _ _ _ _ _
                 (eq_refl : Store.lift (Ret w) _ = (Ret w, _))).
      destruct (Hcls _ _ v w x y
                  (arg_during P h0 esRet [] rest _ _ Hgo)
                  (arg_during P h0 esRet [] rest _ _ Hgn))
        as (fresh & Hsnd & Hout).
      destruct (gs v w (during h0 esRet [] rest)) as [r h1] eqn:Hrun.
      cbn [fst snd] in Hsnd, Hout. subst h1.
      rewrite during_app in Hrun, Hout.
      destruct (g x y) as [xt | e]; destruct r as [vt | e'];
        cbn [outcome_represents] in Hout; try contradiction.
      2:{ subst e'. cbn [bind]. rewrite (bind_raise _ _ _ _ _ Hrun).
          eexists. reflexivity. }
      cbn [bind]. rewrite (bind_run _ _ _ _ _ Hrun).
      pose proof (result_beyond P h0 _ _ _ _ _ _ Hout) as Hres.
      rewrite (bind_run _ _ _ _ _
                 (run_truthy _ _ _ _ (Hres esRet [] eq_refl))).
      destruct (truthy xt).
      * rewrite (bind_run _ _ _ _ _
                   (run_setitem _ _ _ (str i) vt (during_dRet h0 _ _ _))).
        rewrite during_set_dRet.
        apply IH. apply dict_set_related; [| apply Hres; reflexivity].
        apply (stored_moves P h0 esRet [] rest); [reflexivity | exact Hst].
      * rewrite (bind_run _ _ _ _ _ (eq_refl : Store.ret tt _ = (Ret tt, _))).
        apply IH.
        apply (stored_moves P h0 esRet [] rest); [reflexivity | exact Hst].
Qed.

Lemma store_list_new_loop :
  forall (idx : list nat) (dRet : dict) esRet rest,
    stored P h0 1 (during h0 esRet [] rest) dRet esRet ->
    match list_new_loop n idx dRet with
    | Ret dRet' =>
        exists esRet' rest',
          Store.list_new_loop an (length h0) idx (during h0 esRet [] rest)
          = (Ret tt, during h0 esRet' [] rest')
          /\ stored P h0 1 (during h0 esRet' [] rest') dRet' esRet'
    | Raise e =>
        exists f,
          Store.list_new_loop an (length h0) idx (during h0 esRet [] rest)
          = (Raise e, h0 ++ f)
    end.
Proof.
  induction idx as [| i idx IH]; intros dRet esRet rest Hst.
  - simpl. exists esRet, rest. split; [reflexivity | exact Hst].
  - cbn [list_new_loop Store.list_new_loop].
    pose proof (list_get_related _ i n ln Hn) as Hgn.
    rewrite (bind_run _ _ _ _ _ (run_items _ _ _ (during_arg _ _ _ _ _ _ Han))).
    destruct (list_get n i) as [y | e]; destruct (list_get ln i) as [w | e'];
      try contradiction.
    2:{ subst e'. cbn [bind]. eexists. reflexivity. }
    cbn [bind].
    rewrite (bind_run _ _ _ _ _
               (eq_refl : Store.lift (Ret w) _ = (Ret w, _))).
    rewrite (bind_run _ _ _ _ _ (run_old_new _ _ _)).
    rewrite during_app.
    rewrite (bind_run _ _ _ _ _
               (run_setitem _ _ _ (str i) _ (during_dRet h0 _ _ _))).
    rewrite during_set_dRet.
    apply IH. apply dict_set_related.
    + apply (stored_moves P h0 esRet [] rest); [reflexivity | exact Hst].
    + apply (pair_beyond P h0 esRet [] rest);
        [constructor
        | apply (arg_beyond P h0 esRet []); exact Hgn
        | reflexivity].
Qed.

Lemma store_list_branch (old new : Store.hval) :
  old = Store.HRef ao -> new = Store.HRef an ->
  P ao -> P an ->
  exists fresh,
    snd (Store.revision_generate cs old new h0) = h0 ++ fresh
    /\ outcome_represents (fun a => P a \/ length h0 <= a) (h0 ++ fresh)
         (revision_generate c (VList o) (VList n))
         (fst (Store.revision_generate cs old new h0)).
Proof.
  intros -> -> Hpo Hpn.
  assert (Hx : represents_in P h0 (VList o) (Store.HRef ao))
    by (apply rep_List with (items := lo); assumption).
  assert (Hy : represents_in P h0 (VList n) (Store.HRef an))
    by (apply rep_List with (items := ln); assumption).
  unfold Store.revision_generate.
  rewrite (bind_run _ _ _ _ _ (run_classify_list _ _ _ Hao)).
  rewrite (bind_run _ _ _ _ _ (run_classify_list _ _ _ Han)).
  rewrite (bind_run _ _ _ _ _
             (eq_refl : Store.alloc (Store.CDict []) h0 = (Ret (length h0), _))).
  rewrite (bind_run _ _ _ _ _ (run_items _ _ _ (nth_error_start _ _ _ _ Hao))).
  rewrite (bind_run _ _ _ _ _ (run_items _ _ _ (nth_error_start _ _ _ _ Han))).
  replace (h0 ++ [Store.CDict []]) with (during h0 [] [] [])
    by (unfold during; reflexivity).
  rewrite <- (Forall2_length Ho), <- (Forall2_length Hn).
  cbn [revision_generate]. unfold list_changes.
  pose proof (store_list_old_loop (length n) (seq 0 (length o)) [] [] []
                (Forall2_nil _)) as Hloop.
  destruct (list_old_loop c o n (length n) (seq 0 (length o)) []) as [dRet1 | e].
  2:{ destruct Hloop as (f & Hrun). cbn [bind].
      rewrite (bind_raise _ _ _ _ _ Hrun). exists f. split; reflexivity. }
  destruct Hloop as (es1 & rest1 & Hrun & Hst1).
  rewrite (bind_run _ _ _ _ _ Hrun). cbn [bind].
  destruct (length o <? length n).
  - pose proof (store_list_new_loop (seq (length o) (length n - length o))
                  dRet1 es1 rest1 Hst1) as Hloop2.
    destruct (list_new_loop n (seq (length o) (length n - length o)) dRet1)
      as [dRet2 | e].
    2:{ destruct Hloop2 as (f & Hrun2). cbn [bind].
        rewrite (bind_raise _ _ _ _ _ Hrun2). exists f. split; reflexivity. }
    destruct Hloop2 as (es2 & rest2 & Hrun2 & Hst2).
    rewrite (bind_run _ _ _ _ _ Hrun2). cbn [bind].
    exact (store_finish P h0 _ _ _ _ _ _ es2 [] rest2 dRet2 Hx Hy Hst2).
  - rewrite (bind_run _ _ _ _ _ (eq_refl : Store.ret tt _ = (Ret tt, _))).
    exact (store_finish P h0 _ _ _ _ _ _ es1 [] rest1 dRet1 Hx Hy Hst1).
Qed.

End ListBranch.

(** *** The whole method over the store *)

(** The pair [{ 'old': old, 'new': new }] as a result. *)
Lemma store_terminal (P : Store.addr -> Prop) (h : Store.heap)
    (a b : Store.hval) (x y : value) :
  represents_in P h x a -> represents_in P h y b ->
  exists fresh,
    snd (Store.old_new a b h) = h ++ fresh
    /\ outcome_represents (fun c => P c \/ length h <= c) (h ++ fresh)
         (Ret (old_new x y)) (fst (Store.old_new a b h)).
Proof.
  intros Hx Hy. rewrite run_old_new. cbn [fst snd outcome_represents].
  exists [Store.CDict [("old", a); ("new", b)]]. split; [reflexivity |].
  assert (Hmove : forall z u,
    represents_in P h z u ->
    represents_in (fun c => P c \/ length h <= c)
      (h ++ [Store.CDict [("old", a); ("new", b)]]) z u).
  { intros z u. apply represents_in_transport. intros a0 cl Hp Hnth.
    split; [left; exact Hp | apply nth_error_start; exact Hnth]. }
  apply rep_Dict with (es := [("old", a); ("new", b)]).
  - right. lia.
  - rewrite <- (Nat.add_0_r (length h)), nth_error_local. reflexivity.
  - constructor; [split; [reflexivity | apply Hmove; exact Hx] |].
    constructor; [split; [reflexivity | apply Hmove; exact Hy] |].
    constructor.
Qed.

Lemma store_no_change (P : Store.addr -> Prop) (h : Store.heap) :
  exists fresh,
    snd (Store.ret Store.HNone h) = h ++ fresh
    /\ outcome_represents (fun c => P c \/ length h <= c) (h ++ fresh)
         (Ret VNone) (fst (Store.ret Store.HNone h)).
Proof.
  exists []. cbn. rewrite app_nil_r. split; [reflexivity | constructor].
Qed.

Ltac step_classify :=
  match goal with
  | Hn : nth_error ?h ?a = Some (Store.CList _)
    |- context [Store.bind (Store.classify (Store.HRef ?a)) _ ?h] =>
      rewrite (bind_run _ _ _ _ _ (run_classify_list _ _ _ Hn))
  | Hn : nth_error ?h ?a = Some (Store.CDict _)
    |- context [Store.bind (Store.classify (Store.HRef ?a)) _ ?h] =>
      rewrite (bind_run _ _ _ _ _ (run_classify_dict _ _ _ Hn))
  | |- context [Store.bind (Store.classify ?v) ?k ?h] =>
      rewrite (bind_run (Store.classify v) k h h Store.KScalar eq_refl)
  end;
  cbv beta iota.

(** [Store.revision_generate] on a class behaves as [revision_generate] on
    a related class does on the values of the arguments. *)
Lemma revision_generate_refines (cs : Store.pyclass) (c : pyclass) :
  class_refines cs c ->
  method_refines (Store.revision_generate cs) (revision_generate c).
Proof.
  intros Hcls P h a b x y Hx Hy.
  inversion Hx as [| bx | zx | sx | ao lo xo Hpo Hao Ho | ao eo o Hpo Hao Ho];
    subst.
  1-4: inversion Hy as [| by_ | zy | sy | an ln xn Hpn Han Hn | an en n Hpn Han Hn];
    subst; unfold Store.revision_generate; step_classify; step_classify;
    cbn [revision_generate is_dict is_list orb scalar_eq Store.scalar_eq negb];
    try (apply store_terminal; assumption);
    try (apply store_no_change);
    try (match goal with
         | |- context [if negb ?t then _ else _] => destruct t
         end; cbn [negb];
         [apply store_no_change | apply store_terminal; assumption]).
  - (* [old] is a list *)
    inversion Hy as [| by_ | zy | sy | an ln xn Hpn Han Hn | an en n Hpn Han Hn];
      subst.
    5: exact (store_list_branch cs c Hcls P h ao an lo ln xo xn Hao Han Ho Hn
                _ _ eq_refl eq_refl Hpo Hpn).
    all: unfold Store.revision_generate; step_classify; step_classify;
      cbn [revision_generate]; apply store_terminal; assumption.
  - (* [old] is a dict *)
    inversion Hy as [| by_ | zy | sy | an ln xn Hpn Han Hn | an en n Hpn Han Hn];
      subst.
    6: exact (store_dict_branch cs c Hcls P h ao an eo en o n Hao Han Ho Hn
                _ _ eq_refl eq_refl Hpo Hpn).
    all: unfold Store.revision_generate; step_classify; step_classify;
      cbn [revision_generate]; apply store_terminal; assumption.
Qed.

(** The store class that hands the call on refines the value class that
    does. *)
Lemma Delegating_refines (depth : nat) :
  class_refines (Store.Delegating depth) (Delegating depth).
Proof.
  induction depth as [| d IH]; unfold class_refines; simpl.
  - intros P h a b x y _ _. exists []. cbn. rewrite app_nil_r.
    split; reflexivity.
  - apply revision_generate_refines. exact IH.
Qed.

Lemma Storage_refines : class_refines Store.Storage Storage.
Proof.
  exact I.
Qed.

(** A store content stands for one value at most. *)
Lemma represents_in_functional (P : Store.addr -> Prop) (h : Store.heap) :
  forall x v x', represents_in P h x v -> represents_in P h x' v -> x = x'.
Proof.
  intros x. induction x as [| | | | l IHl | d IHd] using value_nested_ind;
    intros v x' Hx Hx';
    inversion Hx as [| | | | a items xs Hp Hn Hall | a es d0 Hp Hn Hall]; subst;
    inversion Hx' as [| | | | a' items' xs' Hp' Hn' Hall' | a' es' d' Hp' Hn' Hall'];
    subst; try reflexivity; try congruence.
  - assert (items' = items) by congruence. subst items'. f_equal.
    clear Hx Hx' Hn Hn'. revert xs' Hall'.
    induction Hall as [| x v l items Hxv Hall IH]; intros xs' Hall';
      inversion Hall' as [| x' v' l' items' Hxv' Hall'']; subst; [reflexivity |].
    inversion IHl as [| ? ? IHx IHl']; subst.
    f_equal; [exact (IHx _ _ Hxv Hxv') | exact (IH IHl' _ Hall'')].
  - assert (es' = es) by congruence. subst es'. f_equal.
    clear Hx Hx' Hn Hn'. revert d' Hall'.
    induction Hall as [| [k x] [k1 v] d es [Hk Hxv] Hall IH]; intros d' Hall';
      inversion Hall' as [| [k' x'] kv' d'' es' [Hk' Hxv'] Hall'']; subst;
      [reflexivity |].
    inversion IHd as [| ? ? IHx IHd']; subst. simpl in *. subst.
    f_equal; [f_equal; exact (IHx _ _ Hxv Hxv') | exact (IH IHd' _ Hall'')].
Qed.

(** C8.  Over the object store, on a class whose [generate_changes] is
    unbound, as on [Storage], or bound to a method that is itself free of
    side effects: a call of [revision_generate] leaves every object that
    existed before the call as it was, the arguments included, and only adds
    objects; its outcome stands for [revision_generate] of the model over
    values, applied to the values of the two arguments, so it depends on
    nothing else in the store; and a second call with the same arguments, in
    the store the first call has left, has an outcome that stands for the
    same value or is the same exception, while the result of the first call
    still stands for what it stood for. *)
Theorem revision_generate_pure (cs : Store.pyclass) (c : pyclass)
    (h : Store.heap) (old new : Store.hval) (x y : value) :
  class_refines cs c ->
  represents h x old -> represents h y new ->
  let first := Store.revision_generate cs old new h in
  let second := Store.revision_generate cs old new (snd first) in
  (exists fresh, snd first = h ++ fresh)
  /\ represents (snd first) x old
  /\ represents (snd first) y new
  /\ outcome_represents (fun _ => True) (snd first)
       (revision_generate c x y) (fst first)
  /\ outcome_represents (fun _ => True) (snd second)
       (revision_generate c x y) (fst second)
  /\ outcome_represents (fun _ => True) (snd second)
       (revision_generate c x y) (fst first).
Proof.
  intros Hcls Hx Hy first second.
  assert (Hkeep : forall (h1 more : Store.heap) a cl,
            True -> nth_error h1 a = Some cl ->
            True /\ nth_error (h1 ++ more) a = Some cl).
  { intros h1 more a cl _ Hnth. split; [exact I |].
    apply nth_error_start. exact Hnth. }
  assert (Hany : forall (Q : Store.addr -> Prop) (h1 : Store.heap) a cl,
            Q a -> nth_error h1 a = Some cl ->
            True /\ nth_error h1 a = Some cl) by auto.
  destruct (revision_generate_refines cs c Hcls _ h old new x y Hx Hy)
    as (fresh1 & Hsnd1 & Hout1).
  fold first in Hsnd1, Hout1.
  assert (Hx1 : represents (snd first) x old).
  { rewrite Hsnd1. revert Hx. apply represents_in_transport. apply Hkeep. }
  assert (Hy1 : represents (snd first) y new).
  { rewrite Hsnd1. revert Hy. apply represents_in_transport. apply Hkeep. }
  destruct (revision_generate_refines cs c Hcls _ (snd first) old new x y Hx1 Hy1)
    as (fresh2 & Hsnd2 & Hout2).
  fold second in Hsnd2, Hout2.
  rewrite <- Hsnd1 in Hout1.
  assert (Hfirst : outcome_represents (fun _ => True) (snd first)
                     (revision_generate c x y) (fst first)).
  { revert Hout1. apply outcome_represents_transport. apply Hany. }
  repeat split.
  - exists fresh1. exact Hsnd1.
  - exact Hx1.
  - exact Hy1.
  - exact Hfirst.
  - rewrite <- Hsnd2 in Hout2. revert Hout2.
    apply outcome_represents_transport. apply Hany.
  - rewrite Hsnd2. revert Hfirst.
    apply outcome_represents_transport. apply Hkeep.
Qed.

Lemma revision_generate_pure_witness :
  class_refines (Store.Delegating 1) (Delegating 1)
  /\ represents
       [Store.CDict [("a", Store.HInt 1); ("b", Store.HInt 2)];
        Store.CDict [("a", Store.HInt 1); ("b", Store.HInt 3)]]
       ex_a1b2 (Store.HRef 0)
  /\ represents
       [Store.CDict [("a", Store.HInt 1); ("b", Store.HInt 2)];
        Store.CDict [("a", Store.HInt 1); ("b", Store.HInt 3)]]
       ex_a1b3 (Store.HRef 1)
  /\ exists fresh,
       snd (Store.revision_generate (Store.Delegating 1)
              (Store.HRef 0) (Store.HRef 1)
              [Store.CDict [("a", Store.HInt 1); ("b", Store.HInt 2)];
               Store.CDict [("a", Store.HInt 1); ("b", Store.HInt 3)]])
       = [Store.CDict [("a", Store.HInt 1); ("b", Store.HInt 2)];
          Store.CDict [("a", Store.HInt 1); ("b", Store.HInt 3)]] ++ fresh.
Proof.
  assert (Hc : class_refines (Store.Delegating 1) (Delegating 1))
    by exact (Delegating_refines 1).
  assert (Hx : represents
       [Store.CDict [("a", Store.HInt 1); ("b", Store.HInt 2)];
        Store.CDict [("a", Store.HInt 1); ("b", Store.HInt 3)]]
       ex_a1b2 (Store.HRef 0)).
  { apply rep_Dict with (es := [("a", Store.HInt 1); ("b", Store.HInt 2)]);
      [exact I | reflexivity | repeat constructor]. }
  assert (Hy : represents
       [Store.CDict [("a", Store.HInt 1); ("b", Store.HInt 2)];
        Store.CDict [("a", Store.HInt 1); ("b", Store.HInt 3)]]
       ex_a1b3 (Store.HRef 1)).
  { apply rep_Dict with (es := [("a", Store.HInt 1); ("b", Store.HInt 3)]);
      [exact I | reflexivity | repeat constructor]. }
  split; [exact Hc |]. split; [exact Hx |]. split; [exact Hy |].
  exact (proj1 (revision_generate_pure _ _ _ _ _ _ _ Hc Hx Hy)).
Defined.

(* ------------------------------------------------------------------ *)
(** ** Where an exception can come from *)

Lemma list_remove_In (k : string) (l : list string) :
  In k l -> exists l', list_remove (String.eqb k) l = Ret l'.
Proof.
  induction l as [| y l IH]; simpl; intros H; [destruct H |].
  destruct (String.eqb_spec k y) as [-> | Hne]; [eauto |].
  destruct H as [H | H]; [congruence |].
  destruct (IH H) as (l' & Hl'). rewrite Hl'. simpl. eauto.
Qed.

Lemma list_remove_keeps (k : string) :
  forall (l l' : list string) (x : string),
    list_remove (String.eqb k) l = Ret l' -> In x l -> x <> k -> In x l'.
Proof.
  induction l as [| y l IH]; simpl; intros l' x Hrun Hx Hne; [destruct Hx |].
  destruct (String.eqb_spec k y) as [-> | Hky].
  - injection Hrun as <-. destruct Hx as [Hx | Hx]; [congruence | exact Hx].
  - apply bind_Ret_inv in Hrun. destruct Hrun as (l'' & Hl'' & Hrun).
    injection Hrun as <-. destruct Hx as [-> | Hx]; [left; reflexivity |].
    right. exact (IH _ _ Hl'' Hx Hne).
Qed.


Lemma list_get_Ret {V : Type} (l : list V) (i : nat) :
  i < length l -> exists v, list_get l i = Ret v.
Proof.
  intros Hi. unfold list_get.
  destruct (nth_error l i) as [v |] eqn:Hn; [eauto |].
  apply nth_error_None in Hn. lia.
Qed.

Lemma list_get_Ret_lt {V : Type} (l : list V) (i : nat) (v : V) :
  list_get l i = Ret v -> i < length l.
Proof.
  unfold list_get. destruct (nth_error l i) eqn:Hn; [| discriminate].
  intros _. apply nth_error_Some. congruence.
Qed.

(** The first loop of the dict branch raises only at a key of both dicts,
    in the lookup or in the call of [cls.generate_changes]. *)
Lemma dict_old_loop_raises (cls : pyclass) (old new : dict) :
  forall (ks : list string) (dRet : dict) (lNew : list string) (e : exn),
    NoDup ks ->
    (forall k, In k ks -> In k (keys old)) ->
    (forall k, In k ks -> dict_in k new = true -> In k lNew) ->
    dict_old_loop cls old new ks dRet lNew = Raise e ->
    exists k a b,
      In k ks /\ dict_get old k = Ret a /\ dict_get new k = Ret b
      /\ ((generate_changes cls = None /\ e = AttributeError)
          \/ exists g, generate_changes cls = Some g /\ g a b = Raise e).
Proof.
  induction ks as [| k ks IH]; intros dRet lNew e Hks Hold Hleft Hrun;
    [discriminate Hrun |].
  inversion Hks as [| ? ? Hk Hks']; subst.
  destruct (dict_get_in old k) as (a & Ha & _); [apply Hold; left; reflexivity |].
  assert (Hlater : forall dRet' lNew',
    (forall k', In k' ks -> dict_in k' new = true -> In k' lNew') ->
    dict_old_loop cls old new ks dRet' lNew' = Raise e ->
    exists k0 a0 b0,
      In k0 (k :: ks) /\ dict_get old k0 = Ret a0 /\ dict_get new k0 = Ret b0
      /\ ((generate_changes cls = None /\ e = AttributeError)
          \/ exists g, generate_changes cls = Some g /\ g a0 b0 = Raise e)).
  { intros dRet' lNew' Hleft' Hrun'.
    destruct (IH dRet' lNew' e Hks' (fun k' Hk' => Hold k' (or_intror Hk'))
                Hleft' Hrun') as (k0 & a0 & b0 & Hin & Hrest).
    exists k0, a0, b0. split; [right; exact Hin | exact Hrest]. }
  cbn [dict_old_loop] in Hrun. rewrite Ha in Hrun.
  destruct (dict_in k new) eqn:Hin; cbn [negb bind] in Hrun.
  - destruct (dict_get_in new k) as (b & Hb & _); [apply dict_in_keys; exact Hin |].
    rewrite Hb in Hrun. unfold getattr_generate_changes in Hrun.
    destruct (generate_changes cls) as [g |] eqn:Hg; cbn [bind] in Hrun.
    + destruct (g a b) as [dTemp | e'] eqn:Ht; cbn [bind] in Hrun.
      * destruct (list_remove_In k lNew) as (lNew1 & Hrm);
          [apply Hleft; [left; reflexivity | exact Hin] |].
        rewrite Hrm in Hrun. cbn [bind] in Hrun.
        refine (Hlater _ lNew1 _ Hrun).
        intros k' Hk' Hin'. apply (list_remove_keeps k _ _ _ Hrm).
        -- apply Hleft; [right; exact Hk' | exact Hin'].
        -- intros ->. contradiction.
      * injection Hrun as ->. exists k, a, b.
        split; [left; reflexivity |]. split; [exact Ha |]. split; [exact Hb |].
        right. exists g. split; [reflexivity | exact Ht].
    + injection Hrun as <-. exists k, a, b.
      split; [left; reflexivity |]. split; [exact Ha |]. split; [exact Hb |].
      left. split; reflexivity.
  - refine (Hlater _ lNew _ Hrun).
    intros k' Hk' Hin'. apply Hleft; [right; exact Hk' | exact Hin'].
Qed.

Lemma dict_new_loop_returns (new : dict) :
  forall (ks : list string) (dRet : dict),
    (forall k, In k ks -> In k (keys new)) ->
    exists dRet', dict_new_loop new ks dRet = Ret dRet'.
Proof.
  induction ks as [| k ks IH]; intros dRet Hnew; simpl; [eauto |].
  destruct (dict_get_in new k) as (b & Hb & _); [apply Hnew; left; reflexivity |].
  rewrite Hb. simpl. apply IH. intros k' Hk'. apply Hnew. right. exact Hk'.
Qed.

(** The loops of the dict branch raise only at a key of both dicts. *)
Lemma dict_changes_raises (cls : pyclass) (old new : dict) (e : exn) :
  NoDup (keys old) ->
  dict_changes cls old new = Raise e ->
  exists k a b,
    dict_get old k = Ret a /\ dict_get new k = Ret b
    /\ ((generate_changes cls = None /\ e = AttributeError)
        \/ exists g, generate_changes cls = Some g /\ g a b = Raise e).
Proof.
  intros Hold Hrun. unfold dict_changes in Hrun.
  destruct (dict_old_loop cls old new (keys old) [] (keys new))
    as [[d1 l1] | e1] eqn:Hrun1; cbn [bind] in Hrun.
  - exfalso.
    destruct (dict_new_loop_returns new l1 d1) as (d2 & Hrun2).
    { intros k Hk.
      exact (dict_old_loop_left_incl _ _ _ _ _ _ _ Hrun1 k Hk). }
    destruct l1; [discriminate Hrun | congruence].
  - injection Hrun as ->.
    destruct (dict_old_loop_raises cls old new (keys old) [] (keys new) e Hold
                (fun _ H => H)
                (fun k _ Hin => proj1 (dict_in_keys k new) Hin) Hrun1)
      as (k & a & b & _ & Hrest).
    exists k, a, b. exact Hrest.
Qed.

(** The first loop of the list branch raises only at an index of both
    lists, in the lookup or in the call of [cls.generate_changes]. *)
Lemma list_old_loop_raises (cls : pyclass) (old new : list value) :
  forall (idx : list nat) (dRet : dict) (e : exn),
    (forall i, In i idx -> i < length old) ->
    list_old_loop cls old new (length new) idx dRet = Raise e ->
    exists i a b,
      list_get old i = Ret a /\ list_get new i = Ret b
      /\ ((generate_changes cls = None /\ e = AttributeError)
          \/ exists g, generate_changes cls = Some g /\ g a b = Raise e).
Proof.
  induction idx as [| i idx IH]; intros dRet e Hold Hrun; [discriminate Hrun |].
  destruct (list_get_Ret old i) as (a & Ha); [apply Hold; left; reflexivity |].
  assert (Hold' : forall j, In j idx -> j < length old)
    by (intros j Hj; apply Hold; right; exact Hj).
  cbn [list_old_loop] in Hrun. rewrite Ha in Hrun.
  destruct (Nat.leb_spec (length new) i) as [Hle | Hlt]; cbn [bind] in Hrun.
  - exact (IH _ e Hold' Hrun).
  - destruct (list_get_Ret new i Hlt) as (b & Hb). rewrite Hb in Hrun.
    unfold getattr_generate_changes in Hrun.
    destruct (generate_changes cls) as [g |] eqn:Hg; cbn [bind] in Hrun.
    + destruct (g a b) as [dTemp | e'] eqn:Ht; cbn [bind] in Hrun.
      * exact (IH _ e Hold' Hrun).
      * injection Hrun as ->. exists i, a, b.
        split; [exact Ha |]. split; [exact Hb |].
        right. exists g. split; [reflexivity | exact Ht].
    + injection Hrun as <-. exists i, a, b.
      split; [exact Ha |]. split; [exact Hb |]. left. split; reflexivity.
Qed.

Lemma list_new_loop_returns (new : list value) :
  forall (idx : list nat) (dRet : dict),
    (forall i, In i idx -> i < length new) ->
    exists dRet', list_new_loop new idx dRet = Ret dRet'.
Proof.
  induction idx as [| i idx IH]; intros dRet Hnew; simpl; [eauto |].
  destruct (list_get_Ret new i) as (b & Hb); [apply Hnew; left; reflexivity |].
  rewrite Hb. simpl. apply IH. intros j Hj. apply Hnew. right. exact Hj.
Qed.

(** The loops of the list branch raise only at an index of both lists. *)
Lemma list_changes_raises (cls : pyclass) (old new : list value) (e : exn) :
  list_changes cls old new = Raise e ->
  exists i a b,
    list_get old i = Ret a /\ list_get new i = Ret b
    /\ ((generate_changes cls = None /\ e = AttributeError)
        \/ exists g, generate_changes cls = Some g /\ g a b = Raise e).
Proof.
  intros Hrun. unfold list_changes in Hrun.
  destruct (list_old_loop cls old new (length new) (seq 0 (length old)) [])
    as [d1 | e1] eqn:Hrun1; cbn [bind] in Hrun.
  - exfalso. destruct (length old <? length new) eqn:Hlt; [| discriminate Hrun].
    destruct (list_new_loop_returns new
                (seq (length old) (length new - length old)) d1) as (d2 & Hrun2).
    { intros i Hi. apply in_seq in Hi. lia. }
    congruence.
  - injection Hrun as ->.
    apply (list_old_loop_raises cls old new _ _ e) with (2 := Hrun1).
    intros i Hi. apply in_seq in Hi. lia.
Qed.

Lemma finish_returns (old new : value) (iOldLen iNewLen : nat) (dRet : dict) :
  exists v, finish old new iOldLen iNewLen dRet = Ret v.
Proof.
  unfold finish. destruct (and_or iOldLen iNewLen <=? length (keys dRet)); [eauto |].
  destruct (truthy (VDict dRet)); eauto.
Qed.

(** Over values, where a bound method is a function of the values of its
    arguments: an exception that ends the call is the [AttributeError] of
    the lookup [cls.generate_changes] on a class that does not bind the
    name, or it is an exception that the bound method has raised, called on
    what the two arguments hold under a key (or at an index) of both. *)
Theorem exceptions_come_from_generate_changes (cls : pyclass)
    (old new : value) (e : exn) :
  distinct_keys old ->
  revision_generate cls old new = Raise e ->
  exists a b,
    shared_items old new a b
    /\ ((generate_changes cls = None /\ e = AttributeError)
        \/ exists g, generate_changes cls = Some g /\ g a b = Raise e).
Proof.
  intros Hold Hrun.
  destruct old as [| bo | zo | so | o | o]; destruct new as [| bn | zn | sn | n | n];
    cbn [revision_generate] in Hrun;
    try discriminate Hrun;
    try (destruct (is_dict _ || is_list _ || negb _); discriminate Hrun).
  - destruct (list_changes cls o n) as [dRet | e1] eqn:Hc; cbn [bind] in Hrun.
    + destruct (finish_returns (VList o) (VList n) (length o) (length n) dRet)
        as (v & Hv). congruence.
    + injection Hrun as ->.
      destruct (list_changes_raises cls o n e Hc) as (i & a & b & Ha & Hb & Hrest).
      exists a, b. split; [exists i; auto | exact Hrest].
  - destruct (dict_changes cls o n) as [dRet | e1] eqn:Hc; cbn [bind] in Hrun.
    + destruct (finish_returns (VDict o) (VDict n) (length (keys o))
                  (length (keys n)) dRet) as (v & Hv). congruence.
    + injection Hrun as ->.
      destruct (dict_changes_raises cls o n e Hold Hc)
        as (k & a & b & Ha & Hb & Hrest).
      exists a, b. split; [exists k; auto | exact Hrest].
Qed.

Lemma exceptions_come_from_generate_changes_witness :
  distinct_keys ex_a1b2
  /\ revision_generate Storage ex_a1b2 ex_a1b3 = Raise AttributeError
  /\ exists a b,
       shared_items ex_a1b2 ex_a1b3 a b
       /\ ((generate_changes Storage = None /\ AttributeError = AttributeError)
           \/ exists g, generate_changes Storage = Some g
                        /\ g a b = Raise AttributeError).
Proof.
  assert (Hold : distinct_keys ex_a1b2) by (apply distinct_NoDup; reflexivity).
  assert (Hrun : revision_generate Storage ex_a1b2 ex_a1b3 = Raise AttributeError)
    by reflexivity.
  split; [exact Hold |]. split; [exact Hrun |].
  exact (exceptions_come_from_generate_changes Storage ex_a1b2 ex_a1b3
           AttributeError Hold Hrun).
Defined.

(* ------------------------------------------------------------------ *)
(** ** What an itemized result holds *)

Lemma revision_generate_dict_inv (cls : pyclass) (o n : dict) (v : value) :
  revision_generate cls (VDict o) (VDict n) = Ret v ->
  exists dRet,
    dict_changes cls o n = Ret dRet
    /\ finish (VDict o) (VDict n) (length (keys o)) (length (keys n)) dRet = Ret v.
Proof.
  cbn [revision_generate]. intros H. apply bind_Ret_inv in H. exact H.
Qed.

Lemma revision_generate_list_inv (cls : pyclass) (o n : list value) (v : value) :
  revision_generate cls (VList o) (VList n) = Ret v ->
  exists dRet,
    list_changes cls o n = Ret dRet
    /\ finish (VList o) (VList n) (length o) (length n) dRet = Ret v.
Proof.
  cbn [revision_generate]. intros H. apply bind_Ret_inv in H. exact H.
Qed.

(** What [finish] hands out, with the number of keys of [dRet]. *)
Lemma finish_inv (old new : value) (iOldLen iNewLen : nat) (dRet : dict) (v : value) :
  finish old new iOldLen iNewLen dRet = Ret v ->
  (v = old_new old new /\ Nat.max iOldLen iNewLen <= length (keys dRet))
  \/ (v = VDict dRet /\ dRet <> []
      /\ length (keys dRet) < Nat.max iOldLen iNewLen)
  \/ (v = VNone /\ dRet = [] /\ 0 < Nat.max iOldLen iNewLen).
Proof.
  unfold finish. rewrite and_or_max.
  destruct (Nat.leb_spec (Nat.max iOldLen iNewLen) (length (keys dRet)))
    as [Hle | Hlt].
  - intros H. injection H as <-. left. split; [reflexivity | exact Hle].
  - destruct dRet as [| kv dRet]; simpl truthy; cbv iota; intros H;
      injection H as <-.
    + right. right. repeat split. simpl in Hlt. exact Hlt.
    + right. left. repeat split; [discriminate | exact Hlt].
Qed.



(** X2.  What a list result holds, index by index.  For two lists a result
    of [revision_generate] is [None], or the pair
    [{'old': old, 'new': new}], or a dict that holds, under [str(i)],
    [{'old': old[i], 'new': None}] for every index only [old] has,
    [{'old': None, 'new': new[i]}] for every index only [new] has, and, for
    an index of both, what [cls.generate_changes(old[i], new[i])] has
    returned when that is not empty and no entry at all when it is. *)
Theorem list_result_by_index (cls : pyclass) (o n : list value) (v : value) :
  revision_generate cls (VList o) (VList n) = Ret v ->
  v = VNone
  \/ v = old_new (VList o) (VList n)
  \/ exists dRet,
       v = VDict dRet
       /\ forall i,
            (i < length o -> length n <= i ->
             exists a, list_get o i = Ret a
                       /\ dict_get dRet (str i) = Ret (old_new a VNone))
            /\ (length o <= i -> i < length n ->
                exists b, list_get n i = Ret b
                          /\ dict_get dRet (str i) = Ret (old_new VNone b))
            /\ (i < length o -> i < length n ->
                exists g a b dTemp,
                  generate_changes cls = Some g
                  /\ list_get o i = Ret a /\ list_get n i = Ret b
                  /\ g a b = Ret dTemp
                  /\ (truthy dTemp = true -> dict_get dRet (str i) = Ret dTemp)
                  /\ (truthy dTemp = false -> ~ In (str i) (keys dRet))).
Proof.
  intros Hrun.
  destruct (revision_generate_list_inv cls o n v Hrun) as (dRet & Hc & Hf).
  destruct (finish_inv _ _ _ _ _ _ Hf) as [[-> _] | [[-> _] | [-> _]]]; auto.
  right. right. exists dRet. split; [reflexivity |].
  exact (list_changes_records cls o n dRet Hc).
Qed.

Lemma list_result_by_index_witness :
  revision_generate (Delegating 1) ex_123 ex_12
  = Ret (VDict [("2", old_new (VInt 3) VNone)])
  /\ (VDict [("2", old_new (VInt 3) VNone)] = VNone
      \/ VDict [("2", old_new (VInt 3) VNone)] = old_new ex_123 ex_12
      \/ exists dRet,
           VDict [("2", old_new (VInt 3) VNone)] = VDict dRet
           /\ exists a, list_get [VInt 1; VInt 2; VInt 3] 2 = Ret a
                        /\ dict_get dRet (str 2) = Ret (old_new a VNone)).
Proof.
  split; [reflexivity |].
  destruct (list_result_by_index (Delegating 1) [VInt 1; VInt 2; VInt 3]
              [VInt 1; VInt 2] _ eq_refl)
    as [H | [H | (dRet & Hv & Hrec)]]; [left; exact H | right; left; exact H |].
  right. right. exists dRet. split; [exact Hv |].
  destruct (Hrec 2) as (Hold & _). apply Hold; simpl; lia.
Defined.

(** X6.  An itemized result always leaves something out.  Whenever
    [revision_generate] returns something else than [None] and the pair
    [{'old': old, 'new': new}], the result is the [dRet] of the loops, it has
    at least one key and fewer keys than the longer argument has keys or
    items; so the longer argument has at least two.  Two dicts of at most
    one key each, or two lists of at most one item each, are never
    itemized: a change below their single key is reported as a replacement
    of the whole. *)
Theorem itemized_result_is_partial (cls : pyclass) (old new v : value) :
  revision_generate cls old new = Ret v ->
  v <> VNone -> v <> old_new old new ->
  exists dRet,
    v = VDict dRet
    /\ changes cls old new = Some (Ret dRet)
    /\ 0 < length (keys dRet)
    /\ length (keys dRet) < Nat.max (len old) (len new)
    /\ 2 <= Nat.max (len old) (len new).
Proof.
  intros Hrun Hnone Hpair.
  assert (Hfin : forall dRet,
    changes cls old new = Some (Ret dRet) ->
    finish old new (len old) (len new) dRet = Ret v ->
    exists dRet,
      v = VDict dRet
      /\ changes cls old new = Some (Ret dRet)
      /\ 0 < length (keys dRet)
      /\ length (keys dRet) < Nat.max (len old) (len new)
      /\ 2 <= Nat.max (len old) (len new)).
  { intros dRet Hc Hf.
    destruct (finish_inv _ _ _ _ _ _ Hf) as [[-> _] | [(-> & Hne & Hlt) | [-> _]]];
      try contradiction.
    exists dRet. split; [reflexivity |]. split; [exact Hc |].
    assert (0 < length (keys dRet))
      by (destruct dRet; [contradiction | simpl; lia]).
    repeat split; lia. }
  destruct old as [| bo | zo | so | o | o]; destruct new as [| bn | zn | sn | n | n];
    cbn [revision_generate] in Hrun;
    try (injection Hrun as <-; contradiction);
    try (destruct (is_dict _ || is_list _ || negb _); injection Hrun as <-;
         contradiction).
  - destruct (revision_generate_list_inv cls o n v Hrun) as (dRet & Hc & Hf).
    apply (Hfin dRet); [simpl; rewrite Hc; reflexivity | exact Hf].
  - destruct (revision_generate_dict_inv cls o n v Hrun) as (dRet & Hc & Hf).
    apply (Hfin dRet); [simpl; rewrite Hc; reflexivity | exact Hf].
Qed.

Lemma itemized_result_is_partial_witness :
  revision_generate (Delegating 1) ex_a1b2 ex_a1b3
  = Ret (VDict [("b", old_new (VInt 2) (VInt 3))])
  /\ VDict [("b", old_new (VInt 2) (VInt 3))] <> VNone
  /\ VDict [("b", old_new (VInt 2) (VInt 3))] <> old_new ex_a1b2 ex_a1b3
  /\ exists dRet,
       VDict [("b", old_new (VInt 2) (VInt 3))] = VDict dRet
       /\ changes (Delegating 1) ex_a1b2 ex_a1b3 = Some (Ret dRet)
       /\ 0 < length (keys dRet)
       /\ length (keys dRet) < Nat.max (len ex_a1b2) (len ex_a1b3)
       /\ 2 <= Nat.max (len ex_a1b2) (len ex_a1b3).
Proof.
  assert (H1 : VDict [("b", old_new (VInt 2) (VInt 3))] <> VNone)
    by discriminate.
  assert (H2 : VDict [("b", old_new (VInt 2) (VInt 3))]
               <> old_new ex_a1b2 ex_a1b3) by discriminate.
  split; [reflexivity |]. split; [exact H1 |]. split; [exact H2 |].
  exact (itemized_result_is_partial (Delegating 1) ex_a1b2 ex_a1b3 _
           eq_refl H1 H2).
Defined.

(* ------------------------------------------------------------------ *)
(** ** Lists of which one is empty, and classes without the name *)

Lemma list_get_nil_raises {V : Type} (i : nat) :
  @list_get V [] i = Raise IndexError.
Proof.
  unfold list_get. destruct i; reflexivity.
Qed.

Lemma list_side_empty (cls : pyclass) (o n : list value) :
  o = [] \/ n = [] ->
  revision_generate cls (VList o) (VList n) = Ret (old_new (VList o) (VList n)).
Proof.
  intros Hempty.
  destruct (list_changes cls o n) as [dRet | e] eqn:Hc.
  - assert (Hch : changes cls (VList o) (VList n) = Some (Ret dRet))
      by (simpl; rewrite Hc; reflexivity).
    rewrite (revision_generate_changes _ _ _ _ Hch).
    apply finish_cases.
    rewrite (list_changes_differing _ _ _ _ Hc), length_map.
    unfold differing_indexes. rewrite length_app, length_seq. simpl len.
    destruct Hempty as [-> | ->]; simpl length.
    + simpl. lia.
    + rewrite filter_all; [rewrite length_seq; lia |].
      intros i _. reflexivity.
  - exfalso.
    destruct (list_changes_raises cls o n e Hc) as (i & a & b & Ha & Hb & _).
    destruct Hempty as [-> | ->]; rewrite list_get_nil_raises in *; discriminate.
Qed.

(** X7.  A list compared with an empty list, either way round, is a
    replacement of the whole: when [old] or [new] is [[]], the result of
    [revision_generate] is exactly [{'old': old, 'new': new}], on every
    class, and no exception is raised. *)
Theorem empty_list_side_collapses (cls : pyclass) (o n : list value) :
  o = [] \/ n = [] ->
  revision_generate cls (VList o) (VList n) = Ret (old_new (VList o) (VList n))
  /\ revision_generate cls (VList n) (VList o)
     = Ret (old_new (VList n) (VList o)).
Proof.
  intros Hempty. split; apply list_side_empty; tauto.
Qed.

Lemma empty_list_side_collapses_witness :
  ([] = @nil value \/ [VInt 1; VInt 2] = [])
  /\ revision_generate Storage (VList []) ex_12
     = Ret (VDict [("old", VList []); ("new", VList [VInt 1; VInt 2])])
  /\ revision_generate Storage ex_12 (VList [])
     = Ret (VDict [("old", VList [VInt 1; VInt 2]); ("new", VList [])]).
Proof.
  assert (H : [] = @nil value \/ [VInt 1; VInt 2] = []) by (left; reflexivity).
  split; [exact H |].
  exact (empty_list_side_collapses Storage [] [VInt 1; VInt 2] H).
Defined.

Lemma existsb_dict_in (o n : dict) :
  existsb (fun k => dict_in k n) (keys o) = true
  <-> exists k, In k (keys o) /\ In k (keys n).
Proof.
  rewrite existsb_exists. split; intros (k & Hk & Hin); exists k;
    (split; [exact Hk | apply dict_in_keys; exact Hin]).
Qed.

Lemma shares_position_sym (a b : value) :
  shares_position a b = shares_position b a.
Proof.
  destruct a as [| | | | o | o]; destruct b as [| | | | n | n]; try reflexivity.
  - simpl. apply andb_comm.
  - simpl.
    destruct (existsb (fun k => dict_in k n) (keys o)) eqn:H1;
      destruct (existsb (fun k => dict_in k o) (keys n)) eqn:H2;
      try reflexivity; exfalso.
    + apply existsb_dict_in in H1. destruct H1 as (k & Ho & Hn).
      assert (H : existsb (fun k => dict_in k o) (keys n) = true)
        by (apply existsb_dict_in; eauto).
      congruence.
    + apply existsb_dict_in in H2. destruct H2 as (k & Hn & Ho).
      assert (H : existsb (fun k => dict_in k n) (keys o) = true)
        by (apply existsb_dict_in; eauto).
      congruence.
Qed.

Lemma scalar_eq_sym (a b : value) : scalar_eq a b = scalar_eq b a.
Proof.
  destruct a; destruct b; simpl; try reflexivity.
  - destruct b0, b; reflexivity.
  - apply Z.eqb_sym.
  - apply Z.eqb_sym.
  - apply Z.eqb_sym.
  - apply String.eqb_sym.
Qed.

(** The method on a class that does not bind [generate_changes], in closed
    form. *)
Lemma unbound_outcome (cls : pyclass) (old new : value) :
  generate_changes cls = None ->
  distinct_keys old -> distinct_keys new ->
  revision_generate cls old new
  = if shares_position old new then Raise AttributeError
    else if is_scalar old && is_scalar new && scalar_eq new old then Ret VNone
    else Ret (old_new old new).
Proof.
  intros Hcls Hold Hnew.
  destruct old as [| bo | zo | so | o | o]; destruct new as [| bn | zn | sn | n | n];
    try reflexivity;
    try (cbn [revision_generate shares_position is_scalar is_dict is_list
              negb andb orb];
         destruct (scalar_eq _ _); reflexivity).
  - (* two lists *)
    cbn [shares_position].
    destruct o as [| x o]; [apply list_side_empty; left; reflexivity |].
    destruct n as [| y n]; [apply list_side_empty; right; reflexivity |].
    cbn [length Nat.eqb negb andb revision_generate]. unfold list_changes.
    rewrite (list_old_loop_unbound cls (x :: o) (y :: n) [] Hcls)
      by discriminate.
    reflexivity.
  - (* two dicts *)
    cbn [shares_position distinct_keys] in *.
    destruct (existsb (fun k => dict_in k n) (keys o)) eqn:Hsh.
    + apply existsb_dict_in in Hsh.
      cbn [revision_generate]. unfold dict_changes.
      rewrite (dict_old_loop_unbound cls o n Hcls); auto.
    + cbn [is_scalar is_dict is_list negb andb].
      assert (Hdisj : forall k, In k (keys o) -> ~ In k (keys n)).
      { intros k Ho Hn.
        assert (H : existsb (fun k => dict_in k n) (keys o) = true)
          by (apply existsb_dict_in; eauto).
        congruence. }
      destruct (dict_changes_disjoint cls o n Hold Hnew Hdisj)
        as (dRet & Hrun & Hkeys).
      assert (Hc : changes cls (VDict o) (VDict n) = Some (Ret dRet))
        by (simpl; rewrite Hrun; reflexivity).
      rewrite (revision_generate_changes _ _ _ _ Hc).
      apply finish_cases. simpl. rewrite Hkeys, length_app. lia.
Qed.

(** X4.  What the method computes on a class that does not bind
    [generate_changes], as [Storage] does not.  For arguments whose dicts
    have distinct keys: the call raises [AttributeError] exactly when the
    arguments are two dicts with a key in common or two non-empty lists; it
    returns [None] exactly when they are two equal values that are neither
    dicts nor lists; in every other case it returns the pair
    [{'old': old, 'new': new}].  An itemized result is never returned. *)
Theorem unbound_class_outcomes (cls : pyclass) (old new : value) :
  generate_changes cls = None ->
  distinct_keys old -> distinct_keys new ->
  (revision_generate cls old new = Raise AttributeError
   <-> shares_position old new = true)
  /\ (revision_generate cls old new = Ret VNone
      <-> is_scalar old && is_scalar new && scalar_eq new old = true)
  /\ (revision_generate cls old new = Ret (old_new old new)
      <-> shares_position old new = false
          /\ is_scalar old && is_scalar new && scalar_eq new old = false)
  /\ (forall v, revision_generate cls old new = Ret v ->
                v = VNone \/ v = old_new old new).
Proof.
  intros Hcls Hold Hnew.
  rewrite (unbound_outcome cls old new Hcls Hold Hnew).
  assert (Hscalar : is_scalar old && is_scalar new = true ->
                    shares_position old new = false).
  { destruct old; destruct new; simpl; try reflexivity; discriminate. }
  destruct (shares_position old new) eqn:Hsh.
  - assert (Hns : is_scalar old && is_scalar new = false).
    { destruct (is_scalar old && is_scalar new); [| reflexivity].
      discriminate (Hscalar eq_refl). }
    rewrite Hns. cbn [andb].
    repeat split; intros; try discriminate; try reflexivity.
    destruct H; discriminate.
  - destruct (is_scalar old && is_scalar new && scalar_eq new old) eqn:Heq.
    + repeat split; intros; try discriminate; try reflexivity.
      * destruct H; discriminate.
      * injection H as <-. left. reflexivity.
    + repeat split; intros; try discriminate; try reflexivity.
      injection H as <-. right. reflexivity.
Qed.

Lemma unbound_class_outcomes_witness :
  generate_changes Storage = None
  /\ distinct_keys ex_a1b2 /\ distinct_keys ex_a1b3
  /\ shares_position ex_a1b2 ex_a1b3 = true
  /\ revision_generate Storage ex_a1b2 ex_a1b3 = Raise AttributeError.
Proof.
  assert (Hold : distinct_keys ex_a1b2) by (apply distinct_NoDup; reflexivity).
  assert (Hnew : distinct_keys ex_a1b3) by (apply distinct_NoDup; reflexivity).
  split; [reflexivity |]. split; [exact Hold |]. split; [exact Hnew |].
  split; [reflexivity |].
  apply (proj1 (unbound_class_outcomes Storage ex_a1b2 ex_a1b3 eq_refl Hold Hnew)).
  reflexivity.
Defined.

(** X5.  Swapping the arguments, on a class that does not bind
    [generate_changes]: [revision_generate(new, old)] raises exactly when
    [revision_generate(old, new)] does, returns [None] exactly when it does,
    and returns [{'old': new, 'new': old}] exactly when it returns
    [{'old': old, 'new': new}]. *)
Theorem unbound_class_swap (cls : pyclass) (old new : value) :
  generate_changes cls = None ->
  distinct_keys old -> distinct_keys new ->
  (forall e, revision_generate cls old new = Raise e
             <-> revision_generate cls new old = Raise e)
  /\ (revision_generate cls old new = Ret VNone
      <-> revision_generate cls new old = Ret VNone)
  /\ (revision_generate cls old new = Ret (old_new old new)
      <-> revision_generate cls new old = Ret (old_new new old)).
Proof.
  intros Hcls Hold Hnew.
  rewrite (unbound_outcome cls old new Hcls Hold Hnew).
  rewrite (unbound_outcome cls new old Hcls Hnew Hold).
  rewrite (shares_position_sym new old), (scalar_eq_sym old new),
    (andb_comm (is_scalar new) (is_scalar old)).
  destruct (shares_position old new).
  - repeat split; intros; try assumption; discriminate.
  - destruct (is_scalar old && is_scalar new && scalar_eq new old).
    + repeat split; intros; try assumption; try reflexivity; discriminate.
    + repeat split; intros; try assumption; try reflexivity; discriminate.
Qed.

Lemma unbound_class_swap_witness :
  generate_changes Storage = None
  /\ distinct_keys ex_empty /\ distinct_keys ex_a1
  /\ revision_generate Storage ex_a1 ex_empty = Ret (old_new ex_a1 ex_empty).
Proof.
  assert (Hold : distinct_keys ex_empty) by (apply distinct_NoDup; reflexivity).
  assert (Hnew : distinct_keys ex_a1) by (apply distinct_NoDup; reflexivity).
  split; [reflexivity |]. split; [exact Hold |]. split; [exact Hnew |].
  destruct (unbound_class_swap Storage ex_empty ex_a1 eq_refl Hold Hnew)
    as (_ & _ & Hpair).
  apply Hpair. reflexivity.
Defined.

(* ------------------------------------------------------------------ *)
(** ** The order of the keys, and the meaning of [None] *)

Lemma keys_nil_inv {V : Type} (d : list (string * V)) : keys d = [] -> d = [].
Proof.
  destruct d; [reflexivity | discriminate].
Qed.

Lemma filter_nil_false {A : Type} (f : A -> bool) (l : list A) :
  filter f l = [] -> forall x, In x l -> f x = false.
Proof.
  induction l as [| y l IH]; simpl; intros H x Hx; [destruct Hx |].
  destruct (f y) eqn:Hy; [discriminate |].
  destruct Hx as [<- | Hx]; [exact Hy | exact (IH H x Hx)].
Qed.

Lemma filter_false_nil {A : Type} (f : A -> bool) (l : list A) :
  (forall x, In x l -> f x = false) -> filter f l = [].
Proof.
  induction l as [| y l IH]; simpl; intros H; [reflexivity |].
  rewrite (H y) by (left; reflexivity). apply IH. auto.
Qed.

(** X8.  The keys of an itemized dict result, in order.  For two dicts
    with distinct keys, the [dRet] that the loops produce has distinct keys:
    first the keys of [old] that are in it, in the order [old] has them,
    then every key that [new] has and [old] lacks, in the order [new] has
    them. *)
Theorem dict_changes_key_order (cls : pyclass) (o n dRet : dict) :
  NoDup (keys o) -> NoDup (keys n) ->
  dict_changes cls o n = Ret dRet ->
  NoDup (keys dRet)
  /\ keys dRet
     = filter (fun k => dict_in k dRet) (keys o)
       ++ filter (fun k => negb (dict_in k o)) (keys n).
Proof.
  intros Ho Hn Hrun.
  pose proof (dict_changes_differing cls o n dRet Ho Hn Hrun) as Hkeys.
  unfold differing_keys in Hkeys.
  assert (Hsame : filter (fun k => dict_in k dRet) (keys o)
                  = filter (differs cls o n) (keys o)).
  { apply filter_ext_in. intros k Hk.
    destruct (differs cls o n k) eqn:Hd.
    - apply dict_in_keys. rewrite Hkeys. apply in_or_app. left.
      apply filter_In. split; [exact Hk | exact Hd].
    - apply dict_in_false. rewrite Hkeys. intros Hin.
      apply in_app_or in Hin. destruct Hin as [Hin | Hin];
        apply filter_In in Hin; destruct Hin as [_ Hin].
      + congruence.
      + rewrite (proj2 (dict_in_keys k o) Hk) in Hin. discriminate Hin. }
  split; [| rewrite Hsame; exact Hkeys].
  rewrite Hkeys. apply NoDup_app.
  - apply NoDup_filter_str. exact Ho.
  - apply NoDup_filter_str. exact Hn.
  - intros k H1 H2. apply filter_In in H1. apply filter_In in H2.
    destruct H1 as [H1 _]. destruct H2 as [_ H2].
    rewrite (proj2 (dict_in_keys k o) H1) in H2. discriminate H2.
Qed.

Lemma dict_changes_key_order_witness :
  NoDup (keys [("a", VInt 1); ("b", VInt 2); ("c", VInt 3); ("d", VInt 4)])
  /\ NoDup (keys [("e", VInt 5); ("c", VInt 0); ("a", VInt 1); ("f", VInt 6)])
  /\ dict_changes (Delegating 1)
       [("a", VInt 1); ("b", VInt 2); ("c", VInt 3); ("d", VInt 4)]
       [("e", VInt 5); ("c", VInt 0); ("a", VInt 1); ("f", VInt 6)]
     = Ret [("b", old_new (VInt 2) VNone); ("c", old_new (VInt 3) (VInt 0));
            ("d", old_new (VInt 4) VNone); ("e", old_new VNone (VInt 5));
            ("f", old_new VNone (VInt 6))]
  /\ NoDup (keys [("b", old_new (VInt 2) VNone); ("c", old_new (VInt 3) (VInt 0));
                  ("d", old_new (VInt 4) VNone); ("e", old_new VNone (VInt 5));
                  ("f", old_new VNone (VInt 6))]).
Proof.
  assert (Ho : NoDup (keys [("a", VInt 1); ("b", VInt 2); ("c", VInt 3);
                            ("d", VInt 4)]))
    by (apply distinct_NoDup; reflexivity).
  assert (Hn : NoDup (keys [("e", VInt 5); ("c", VInt 0); ("a", VInt 1);
                            ("f", VInt 6)]))
    by (apply distinct_NoDup; reflexivity).
  split; [exact Ho |]. split; [exact Hn |]. split; [reflexivity |].
  exact (proj1 (dict_changes_key_order (Delegating 1) _ _ _ Ho Hn eq_refl)).
Defined.



(** X10.  When two lists give [None].  [revision_generate] returns [None]
    for two lists exactly when they have the same length, which is not
    [0], and at every index [cls.generate_changes(old[i], new[i])] has
    returned something empty.  So lists of different lengths never give
    [None]. *)
Theorem list_None_iff_no_difference (cls : pyclass) (o n : list value) :
  revision_generate cls (VList o) (VList n) = Ret VNone
  <-> o <> []
      /\ length o = length n
      /\ (forall i, i < length o ->
            exists g a b dTemp,
              generate_changes cls = Some g
              /\ list_get o i = Ret a /\ list_get n i = Ret b
              /\ g a b = Ret dTemp /\ truthy dTemp = false).
Proof.
  split.
  - intros Hrun.
    destruct (revision_generate_list_inv cls o n _ Hrun) as (dRet & Hc & Hf).
    destruct (finish_inv _ _ _ _ _ _ Hf)
      as [[Hv _] | [(Hv & _) | (_ & -> & Hmax)]]; try discriminate Hv.
    pose proof (list_changes_differing cls o n [] Hc) as Hkeys.
    unfold differing_indexes in Hkeys. simpl in Hkeys. symmetry in Hkeys.
    apply map_eq_nil, app_eq_nil in Hkeys. destruct Hkeys as [Hchanged Hadded].
    assert (Hle : length n <= length o).
    { destruct (length n - length o) eqn:Hd; [lia | discriminate Hadded]. }
    assert (Hge : length o <= length n).
    { destruct (Nat.le_gt_cases (length o) (length n)) as [H | H]; [exact H |].
      exfalso.
      assert (Hin : In (length n) (seq 0 (length o))) by (apply in_seq; lia).
      pose proof (filter_nil_false _ _ Hchanged _ Hin) as Hd.
      unfold differs_at in Hd. rewrite Nat.leb_refl in Hd. discriminate Hd. }
    split; [| split; [lia |]].
    + intros ->. simpl in Hmax. simpl in Hge, Hle. lia.
    + intros i Hi.
      destruct (list_changes_records cls o n [] Hc i) as (_ & _ & Hrec).
      destruct (Hrec Hi ltac:(lia))
        as (g & a & b & dTemp & Hg & Ha & Hb & Ht & Htrue & _).
      exists g, a, b, dTemp. repeat split; try assumption.
      destruct (truthy dTemp); [| reflexivity].
      discriminate (Htrue eq_refl).
  - intros (Hne & Hlen & Hsame).
    destruct (list_changes cls o n) as [dRet | e] eqn:Hc.
    + pose proof (list_changes_differing cls o n dRet Hc) as Hkeys.
      unfold differing_indexes in Hkeys.
      rewrite (filter_false_nil (differs_at cls o n)) in Hkeys.
      2:{ intros i Hi. apply in_seq in Hi.
          destruct (Hsame i ltac:(lia))
            as (g & a & b & dTemp & Hg & Ha & Hb & Ht & Hf).
          unfold differs_at.
          destruct (Nat.leb_spec (length n) i) as [Hle | _]; [lia |].
          rewrite Hg, Ha, Hb, Ht. exact Hf. }
      replace (length n - length o) with 0 in Hkeys by lia.
      simpl in Hkeys. apply keys_nil_inv in Hkeys. subst dRet.
      assert (Hch : changes cls (VList o) (VList n) = Some (Ret []))
        by (simpl; rewrite Hc; reflexivity).
      rewrite (revision_generate_changes _ _ _ _ Hch).
      apply finish_cases; [| reflexivity].
      unfold len. destruct o; [contradiction | cbn [keys map length]; lia].
    + exfalso.
      destruct (list_changes_raises cls o n e Hc) as (i & a & b & Ha & Hb & Hwhy).
      destruct (Hsame i (list_get_Ret_lt _ _ _ Ha))
        as (g & a' & b' & dTemp & Hg & Ha' & Hb' & Ht & _).
      assert (a' = a) by congruence. assert (b' = b) by congruence. subst.
      destruct Hwhy as [[Hnone _] | (g' & Hg' & Hraise)]; congruence.
Qed.

Lemma list_None_iff_no_difference_witness :
  revision_generate (Delegating 1) ex_12 (VList [VBool true; VInt 2]) = Ret VNone
  /\ length [VInt 1; VInt 2] = length [VBool true; VInt 2].
Proof.
  split; [reflexivity |].
  destruct (proj1 (list_None_iff_no_difference (Delegating 1)
                     [VInt 1; VInt 2] [VBool true; VInt 2]) eq_refl)
    as (_ & Hlen & _).
  exact Hlen.
Defined.

(* ------------------------------------------------------------------ *)
(** ** The pair holds the arguments themselves *)

Lemma classify_keeps_store (v : Store.hval) (h : Store.heap) :
  snd (Store.classify v h) = h.
Proof.
  destruct v; try reflexivity.
  unfold Store.classify, Store.bind, Store.load.
  destruct (nth_error h a); reflexivity.
Qed.

(** X11.  No copy is made.  Over the object store, when [old] and [new]
    are of different kinds (one a dict and the other not, one a list and
    the other not), the call allocates exactly one object, the dict
    [{'old': old, 'new': new}], whose two entries hold the very references
    that were passed as arguments; it returns the reference to that object
    and changes nothing else in the store, whatever the class. *)
Theorem store_pair_holds_arguments (cs : Store.pyclass) (h : Store.heap)
    (old new : Store.hval) (ko kn : Store.kind) :
  fst (Store.classify old h) = Ret ko ->
  fst (Store.classify new h) = Ret kn ->
  same_kind ko kn = false ->
  Store.revision_generate cs old new h
  = (Ret (Store.HRef (length h)),
     h ++ [Store.CDict [("old", old); ("new", new)]]).
Proof.
  intros Ho Hn Hkind.
  assert (Hco : Store.classify old h = (Ret ko, h)).
  { pose proof (classify_keeps_store old h) as Hs.
    destruct (Store.classify old h) as [r h1]. simpl in Ho, Hs. congruence. }
  assert (Hcn : Store.classify new h = (Ret kn, h)).
  { pose proof (classify_keeps_store new h) as Hs.
    destruct (Store.classify new h) as [r h1]. simpl in Hn, Hs. congruence. }
  unfold Store.revision_generate.
  rewrite (bind_run _ _ _ _ _ Hco).
  destruct ko; rewrite (bind_run _ _ _ _ _ Hcn);
    destruct kn; try discriminate Hkind; reflexivity.
Qed.

Lemma store_pair_holds_arguments_witness :
  fst (Store.classify (Store.HRef 0) [Store.CDict [("a", Store.HInt 1)]])
  = Ret (Store.KDict 0)
  /\ fst (Store.classify (Store.HInt 1) [Store.CDict [("a", Store.HInt 1)]])
     = Ret Store.KScalar
  /\ same_kind (Store.KDict 0) Store.KScalar = false
  /\ Store.revision_generate Store.Storage (Store.HRef 0) (Store.HInt 1)
       [Store.CDict [("a", Store.HInt 1)]]
     = (Ret (Store.HRef 1),
        [Store.CDict [("a", Store.HInt 1)];
         Store.CDict [("old", Store.HRef 0); ("new", Store.HInt 1)]]).
Proof.
  split; [reflexivity |]. split; [reflexivity |]. split; [reflexivity |].
  exact (store_pair_holds_arguments Store.Storage
           [Store.CDict [("a", Store.HInt 1)]] (Store.HRef 0) (Store.HInt 1)
           (Store.KDict 0) Store.KScalar eq_refl eq_refl eq_refl).
Defined.

(* ------------------------------------------------------------------ *)
(** ** Exceptions over the object store *)

Lemma outcome_represents_Raise (P : Store.addr -> Prop) (h : Store.heap)
    (p : outcome value) (s : outcome Store.hval) (e : exn) :
  outcome_represents P h p s -> (p = Raise e <-> s = Raise e).
Proof.
  destruct p as [x | e1]; destruct s as [v | e2]; simpl; intros H;
    try contradiction.
  - split; discriminate.
  - subst e2. split; intros He; injection He as ->; reflexivity.
Qed.

(** What two related arguments hold under a common key or index is related
    too. *)
Lemma shared_items_stored (h : Store.heap) (old new : Store.hval)
    (x y a' b' : value) :
  represents h x old -> represents h y new ->
  shared_items x y a' b' ->
  exists a b,
    stored_shared_items h old new a b
    /\ represents h a' a /\ represents h b' b.
Proof.
  intros Hx Hy Hsh. unfold represents in *.
  inversion Hx as [| | | | ao lo xo _ Hao Ho | ao eo o _ Hao Ho]; subst;
    try (destruct y; contradiction);
    inversion Hy as [| | | | an ln xn _ Han Hn | an en n _ Han Hn]; subst;
    try contradiction.
  - destruct Hsh as (i & Ha & Hb).
    pose proof (list_get_related _ i xo lo Ho) as Hgo.
    pose proof (list_get_related _ i xn ln Hn) as Hgn.
    rewrite Ha in Hgo. rewrite Hb in Hgn.
    destruct (list_get lo i) as [a |] eqn:Hla; [| contradiction].
    destruct (list_get ln i) as [b |] eqn:Hlb; [| contradiction].
    exists a, b. split; [| split; assumption].
    unfold stored_shared_items. rewrite Hao, Han. exists i. auto.
  - destruct Hsh as (k & Ha & Hb).
    pose proof (dict_get_related _ k o eo Ho) as Hgo.
    pose proof (dict_get_related _ k n en Hn) as Hgn.
    rewrite Ha in Hgo. rewrite Hb in Hgn.
    destruct (dict_get eo k) as [a |] eqn:Hda; [| contradiction].
    destruct (dict_get en k) as [b |] eqn:Hdb; [| contradiction].
    exists a, b. split; [| split; assumption].
    unfold stored_shared_items. rewrite Hao, Han. exists k. auto.
Qed.

(** X3.  Where an exception can come from, over the object store.  On a
    class whose [generate_changes] is unbound, or bound to a method that
    leaves the objects it is given as they are ([class_refines]), and for
    arguments that hold values, the dict [old] with distinct keys: an
    exception that ends [revision_generate] is the [AttributeError] of the
    lookup [cls.generate_changes] on the class that does not bind the name,
    or it is an exception that the bound method raises when it is called on
    what [old] and [new] hold under a key, or at an index, of both.  Under
    that condition on the class the method's own [old[k]], [new[k]],
    [old[i]], [new[i]] and [lNewKeys.remove(k)] do not raise. *)
Theorem store_exceptions_come_from_generate_changes
    (cs : Store.pyclass) (c : pyclass) (h : Store.heap)
    (old new : Store.hval) (x y : value) (e : exn) :
  class_refines cs c ->
  represents h x old -> represents h y new ->
  distinct_keys x ->
  fst (Store.revision_generate cs old new h) = Raise e ->
  (Store.generate_changes cs = None /\ e = AttributeError)
  \/ exists gs a b,
       Store.generate_changes cs = Some gs
       /\ stored_shared_items h old new a b
       /\ fst (gs a b h) = Raise e.
Proof.
  intros Hcls Hx Hy Hkeys Hrun.
  destruct (revision_generate_refines cs c Hcls _ h old new x y Hx Hy)
    as (fresh & _ & Hout).
  apply (outcome_represents_Raise _ _ _ _ e) in Hout.
  apply Hout in Hrun.
  destruct (exceptions_come_from_generate_changes c x y e Hkeys Hrun)
    as (a' & b' & Hsh & Hwhy).
  unfold class_refines in Hcls.
  destruct (Store.generate_changes cs) as [gs |];
    destruct (generate_changes c) as [g |]; try contradiction.
  - right.
    destruct Hwhy as [[Hnone _] | (g' & Hg' & Hraise)]; [discriminate Hnone |].
    injection Hg' as <-.
    destruct (shared_items_stored h old new x y a' b' Hx Hy Hsh)
      as (a & b & Hst & Ha & Hb).
    destruct (Hcls _ h a b a' b' Ha Hb) as (fresh' & _ & Hout').
    apply (outcome_represents_Raise _ _ _ _ e) in Hout'.
    exists gs, a, b. split; [reflexivity |]. split; [exact Hst |].
    apply Hout'. exact Hraise.
  - left. destruct Hwhy as [[_ He] | (g' & Hg' & _)]; [| discriminate Hg'].
    split; [reflexivity | exact He].
Qed.

Lemma store_exceptions_come_from_generate_changes_witness :
  class_refines Store.Storage Storage
  /\ represents
       [Store.CDict [("a", Store.HInt 1); ("b", Store.HInt 2)];
        Store.CDict [("a", Store.HInt 1); ("b", Store.HInt 3)]]
       ex_a1b2 (Store.HRef 0)
  /\ represents
       [Store.CDict [("a", Store.HInt 1); ("b", Store.HInt 2)];
        Store.CDict [("a", Store.HInt 1); ("b", Store.HInt 3)]]
       ex_a1b3 (Store.HRef 1)
  /\ distinct_keys ex_a1b2
  /\ fst (Store.revision_generate Store.Storage (Store.HRef 0) (Store.HRef 1)
            [Store.CDict [("a", Store.HInt 1); ("b", Store.HInt 2)];
             Store.CDict [("a", Store.HInt 1); ("b", Store.HInt 3)]])
     = Raise AttributeError
  /\ ((Store.generate_changes Store.Storage = None
       /\ AttributeError = AttributeError)
      \/ exists gs a b,
           Store.generate_changes Store.Storage = Some gs
           /\ stored_shared_items
                [Store.CDict [("a", Store.HInt 1); ("b", Store.HInt 2)];
                 Store.CDict [("a", Store.HInt 1); ("b", Store.HInt 3)]]
                (Store.HRef 0) (Store.HRef 1) a b
           /\ fst (gs a b
                     [Store.CDict [("a", Store.HInt 1); ("b", Store.HInt 2)];
                      Store.CDict [("a", Store.HInt 1); ("b", Store.HInt 3)]])
              = Raise AttributeError).
Proof.
  assert (Hc : class_refines Store.Storage Storage) by exact I.
  assert (Hx : represents
       [Store.CDict [("a", Store.HInt 1); ("b", Store.HInt 2)];
        Store.CDict [("a", Store.HInt 1); ("b", Store.HInt 3)]]
       ex_a1b2 (Store.HRef 0)).
  { apply rep_Dict with (es := [("a", Store.HInt 1); ("b", Store.HInt 2)]);
      [exact I | reflexivity | repeat constructor]. }
  assert (Hy : represents
       [Store.CDict [("a", Store.HInt 1); ("b", Store.HInt 2)];
        Store.CDict [("a", Store.HInt 1); ("b", Store.HInt 3)]]
       ex_a1b3 (Store.HRef 1)).
  { apply rep_Dict with (es := [("a", Store.HInt 1); ("b", Store.HInt 3)]);
      [exact I | reflexivity | repeat constructor]. }
  assert (Hk : distinct_keys ex_a1b2) by (apply distinct_NoDup; reflexivity).
  split; [exact Hc |]. split; [exact Hx |]. split; [exact Hy |].
  split; [exact Hk |]. split; [reflexivity |].
  exact (store_exceptions_come_from_generate_changes Store.Storage Storage
           _ _ _ _ _ AttributeError Hc Hx Hy Hk eq_refl).
Defined.
